(** * CbmSim: the simulation state container and the trial engine

    A shallow embedding of [cbm_state/cbmstate.cpp] (the class
    [CBMState]) and of [Big_Sim/control.cpp] (the class [Control]),
    with the properties of the state file format, of the spike statistics
    and of the trial loop.

    Conventions.
    - A C++ [int] is a [Z]; signed overflow is undefined behaviour and is
      not modelled.  Unsigned counters wrap: [ct_uint32_t] modulo [2^32].
    - A [std::fstream] read for input is the bytes still to be read and
      its fail bit; a stream written to is the bytes written so far.
    - The classes defined outside these two files (the four
      sub-state records, the random generator, the numeric kernel, the
      stimulus generators, the front ends) are interfaces: type classes
      whose fields are the member functions the code calls. *)

From Stdlib Require Import ZArith QArith Lia.
From Stdlib.Strings Require Import Byte.
From Stdlib.Strings Require Import Ascii.
From stdpp Require Import base option list sorting gmap strings.

Local Open Scope Z_scope.

(** ** Streams and failures *)

Record fstream := Fstream { stream_bytes : list byte; stream_fail : bool }.

(** A stream freshly opened on the bytes [bs]. *)
Definition open_stream (bs : list byte) : fstream := Fstream bs false.

(** The outcome of a call that may throw. *)
Inductive result (E A : Type) : Type :=
| Ok (a : A)
| Raise (e : E).
Arguments Ok {E A} a.
Arguments Raise {E A} e.

Definition bind {E A B} (r : result E A) (k : A -> result E B) : result E B :=
  match r with
  | Ok a => k a
  | Raise e => Raise e
  end.

Declare Scope result_scope.
Delimit Scope result_scope with result.
Notation "'let*' p := r 'in' k" := (bind r (fun p => k))
  (at level 10, p pattern, r at level 200, k at level 200) : result_scope.
Local Open Scope result_scope.

(** ** The sub-state records and the random generator (interfaces) *)

(** [InNetConnectivityState], [InNetActivityState],
    [MZoneConnectivityState] and [MZoneActivityState]: their generative
    constructors, their constructors from a stream, and their
    [readState] / [writeState] members.  A constructor from a stream
    either returns the object and the stream as it left it, or throws. *)
Class Components := {
  exn : Type;
  plasticity : Type;
  InNetConnectivityState : Type;
  InNetActivityState : Type;
  MZoneConnectivityState : Type;
  MZoneActivityState : Type;
  (* new X(seed), new InNetActivityState() *)
  InNetConnectivityState_seed : Z -> InNetConnectivityState;
  InNetActivityState_new : InNetActivityState;
  MZoneConnectivityState_seed : Z -> MZoneConnectivityState;
  MZoneActivityState_seed : Z -> MZoneActivityState;
  (* new X(sim_file_buf) *)
  InNetConnectivityState_file :
    fstream -> result exn (InNetConnectivityState * fstream);
  InNetActivityState_file :
    fstream -> result exn (InNetActivityState * fstream);
  MZoneConnectivityState_file :
    fstream -> result exn (MZoneConnectivityState * fstream);
  MZoneActivityState_file :
    plasticity -> fstream -> result exn (MZoneActivityState * fstream);
  (* x->readState(infile) *)
  innetCon_readState :
    InNetConnectivityState -> fstream ->
    result exn (InNetConnectivityState * fstream);
  innetAct_readState :
    InNetActivityState -> fstream -> result exn (InNetActivityState * fstream);
  mzoneCon_readState :
    MZoneConnectivityState -> fstream ->
    result exn (MZoneConnectivityState * fstream);
  mzoneAct_readState :
    MZoneActivityState -> fstream -> result exn (MZoneActivityState * fstream);
  (* x->writeState(outfile): the bytes appended to the stream *)
  innetCon_writeState : InNetConnectivityState -> list byte;
  innetAct_writeState : InNetActivityState -> list byte;
  mzoneCon_writeState : MZoneConnectivityState -> list byte;
  mzoneAct_writeState : MZoneActivityState -> list byte;
}.

(** [CRandomSFMT]: seeding and [IRandom(min, max)]. *)
Class RandGen := {
  CRandomSFMT : Type;
  CRandomSFMT_seed : Z -> CRandomSFMT;
  IRandom : Z -> Z -> CRandomSFMT -> Z * CRandomSFMT;
}.

Definition INT_MAX : Z := 2 ^ 31 - 1.

(** ** cbmstate.cpp *)

Section CBMState.
Context `{C : Components} `{R : RandGen}.

Record CBMState := MkCBMState {
  numZones : nat;
  innetConState : InNetConnectivityState;
  innetActState : InNetActivityState;
  mzoneConStates : list MZoneConnectivityState;
  mzoneActStates : list MZoneActivityState;
}.

(** The loop of the generative constructor: for each zone, in index
    order, two draws and the two records built from them. *)
Fixpoint new_zones_seeded (nZones : nat) (randGen : CRandomSFMT)
  : list MZoneConnectivityState * list MZoneActivityState * CRandomSFMT :=
  match nZones with
  | O => ([], [], randGen)
  | S n =>
      let '(mzoneCRSeed, randGen) := IRandom 0 INT_MAX randGen in
      let '(mzoneARSeed, randGen) := IRandom 0 INT_MAX randGen in
      let con := MZoneConnectivityState_seed mzoneCRSeed in
      let act := MZoneActivityState_seed mzoneARSeed in
      let '(zcons, zacts, randGen) := new_zones_seeded n randGen in
      (con :: zcons, act :: zacts, randGen)
  end.

(** [CBMState::CBMState(unsigned int nZones)].  [time_0] is the value
    of [time(0)], which the constructor reads from the wall clock: the
    caller passes [nZones] only. *)
Definition CBMState_new (time_0 : Z) (nZones : nat) : CBMState :=
  let randGen := CRandomSFMT_seed time_0 in
  let '(innetCRSeed, randGen) := IRandom 0 INT_MAX randGen in
  let con := InNetConnectivityState_seed innetCRSeed in
  let act := InNetActivityState_new in
  let '(zcons, zacts, _) := new_zones_seeded nZones randGen in
  MkCBMState nZones con act zcons zacts.

(** The loop of the constructor from a stream. *)
Fixpoint new_zones_file (nZones : nat) (plast_type : plasticity)
    (sim_file_buf : fstream)
  : result exn (list MZoneConnectivityState * list MZoneActivityState
                * fstream) :=
  match nZones with
  | O => Ok ([], [], sim_file_buf)
  | S n =>
      let* (con, sim_file_buf) := MZoneConnectivityState_file sim_file_buf in
      let* (act, sim_file_buf) := MZoneActivityState_file plast_type sim_file_buf in
      let* (zcons, zacts, sim_file_buf) := new_zones_file n plast_type sim_file_buf in
      Ok (con :: zcons, act :: zacts, sim_file_buf)
  end.

(** [CBMState::CBMState(unsigned int nZones, enum plasticity plast_type,
    std::fstream &sim_file_buf)]. *)
Definition CBMState_file (nZones : nat) (plast_type : plasticity)
    (sim_file_buf : fstream) : result exn (CBMState * fstream) :=
  let* (con, sim_file_buf) := InNetConnectivityState_file sim_file_buf in
  let* (act, sim_file_buf) := InNetActivityState_file sim_file_buf in
  let* (zcons, zacts, sim_file_buf) := new_zones_file nZones plast_type sim_file_buf in
  Ok (MkCBMState nZones con act zcons zacts, sim_file_buf).

(** The loop of [readState]: zones [i], [i+1], ... ([k] of them), each
    read in place.  An index outside the arrays is undefined behaviour
    in the source; here the zone is skipped. *)
Fixpoint read_zones (k i : nat)
    (zcons : list MZoneConnectivityState) (zacts : list MZoneActivityState)
    (infile : fstream)
  : result exn (list MZoneConnectivityState * list MZoneActivityState
                * fstream) :=
  match k with
  | O => Ok (zcons, zacts, infile)
  | S k' =>
      match zcons !! i, zacts !! i with
      | Some con, Some act =>
          let* (con', infile) := mzoneCon_readState con infile in
          let* (act', infile) := mzoneAct_readState act infile in
          read_zones k' (S i) (<[i := con']> zcons) (<[i := act']> zacts) infile
      | _, _ => read_zones k' (S i) zcons zacts infile
      end
  end.

(** [CBMState::readState]. *)
Definition readState (s : CBMState) (infile : fstream)
  : result exn (CBMState * fstream) :=
  let* (con, infile) := innetCon_readState (innetConState s) infile in
  let* (act, infile) := innetAct_readState (innetActState s) infile in
  let* (zcons, zacts, infile) :=
    read_zones (numZones s) 0 (mzoneConStates s) (mzoneActStates s) infile in
  Ok (MkCBMState (numZones s) con act zcons zacts, infile).

(** The loop of [writeState]. *)
Fixpoint write_zones (k i : nat)
    (zcons : list MZoneConnectivityState) (zacts : list MZoneActivityState)
    (outfile : list byte) : list byte :=
  match k with
  | O => outfile
  | S k' =>
      match zcons !! i, zacts !! i with
      | Some con, Some act =>
          let outfile := outfile ++ mzoneCon_writeState con in
          let outfile := outfile ++ mzoneAct_writeState act in
          write_zones k' (S i) zcons zacts outfile
      | _, _ => write_zones k' (S i) zcons zacts outfile
      end
  end.

(** [CBMState::writeState]. *)
Definition writeState (s : CBMState) (outfile : list byte) : list byte :=
  let outfile := outfile ++ innetCon_writeState (innetConState s) in
  let outfile := outfile ++ innetAct_writeState (innetActState s) in
  write_zones (numZones s) 0 (mzoneConStates s) (mzoneActStates s) outfile.

Definition getNumZones (s : CBMState) : nat := numZones s.

(** The accessors [getMZoneConStateInternal] and
    [getMZoneActStateInternal]. *)
Definition getMZoneConStateInternal (s : CBMState) (zoneN : nat) :=
  mzoneConStates s !! zoneN.
Definition getMZoneActStateInternal (s : CBMState) (zoneN : nat) :=
  mzoneActStates s !! zoneN.

(** A state has its [numZones] zones (both constructors establish it). *)
Definition zones_allocated (s : CBMState) : Prop :=
  length (mzoneConStates s) = numZones s /\
  length (mzoneActStates s) = numZones s.

(** The fields of a state in file order: the bytes of each, one list
    entry per field. *)
Definition fields_in_order (s : CBMState) : list (list byte) :=
  innetCon_writeState (innetConState s)
  :: innetAct_writeState (innetActState s)
  :: concat (zip_with (fun con act =>
                         [mzoneCon_writeState con; mzoneAct_writeState act])
                      (mzoneConStates s) (mzoneActStates s)).

(** The bytes of a run of zones, zone by zone. *)
Definition zone_bytes (zcons : list MZoneConnectivityState)
    (zacts : list MZoneActivityState) : list byte :=
  concat (concat (zip_with (fun con act =>
                    [mzoneCon_writeState con; mzoneAct_writeState act])
                  zcons zacts)).

(** The draws of a generator: the first [k] values of
    [IRandom(0, INT_MAX)]. *)
Fixpoint draws (k : nat) (randGen : CRandomSFMT) : list Z :=
  match k with
  | O => []
  | S k' => let '(x, randGen) := IRandom 0 INT_MAX randGen in
            x :: draws k' randGen
  end.

End CBMState.

(** ** control.cpp: the interfaces it calls *)

(** [float], and the values of the literals of [runTrials] once converted
    to it: [0.017], [0.0007 * 0.9], [0.00350 * 0.9] and [0.3]. *)
Class Floats := {
  float : Type;
  float_0_017 : float;
  float_0_0007_x_0_9 : float;
  float_0_00350_x_0_9 : float;
  float_0_3 : float;
}.

(** [CBMSimCore], the numeric kernel, with its input network and its
    zones.  The kernel works on the sub-states of [simState] through the
    pointer it was built with; its state here includes them.  A spike
    vector ([const ct_uint8_t *]) is a list of integers. *)
Class Kernel `{Floats} := {
  CBMSimCore : Type;
  InNet : Type;
  MZone : Type;
  getInputNet : CBMSimCore -> InNet;
  getMZoneList : CBMSimCore -> list MZone;
  exportAPGR : InNet -> list Z;
  exportAPGO : InNet -> list Z;
  exportAPSC : InNet -> list Z;
  exportAPBC : MZone -> list Z;
  exportAPPC : MZone -> list Z;
  exportAPIO : MZone -> list Z;
  exportAPNC : MZone -> list Z;
  updateErrDrive : nat -> float -> CBMSimCore -> CBMSimCore;
  updateTrueMFs : list bool -> CBMSimCore -> CBMSimCore;
  updateMFInput : list Z -> CBMSimCore -> CBMSimCore;
  calcActivity :
    float -> float -> float -> float -> float -> CBMSimCore -> CBMSimCore;
  simCore_writeState : CBMSimCore -> list byte;
}.

(** [ECMFPopulation] (the frequency profiles) and [PoissonRegenCells]
    (the sampler, which owns a generator).  [gen_gr_sample] stands for the
    function of that name in control.cpp, which fills [gr_indices] with
    [sample_size] distinct indices below [data_size] drawn from a
    [CRandomSFMT0] seeded with the constant 0: its rejection loop is not
    unfolded, the sample is a function of the two sizes. *)
Class Stimulus `{Kernel} := {
  ECMFPopulation : Type;
  PoissonRegenCells : Type;
  getMFBG : ECMFPopulation -> list float;
  getMFFreqInCSPhasic : ECMFPopulation -> list float;
  getMFInCSTonicA : ECMFPopulation -> list float;
  calcPoissActivity :
    list float -> list MZone -> PoissonRegenCells -> list Z * PoissonRegenCells;
  calcTrueMFs : list float -> PoissonRegenCells -> list bool * PoissonRegenCells;
  gen_gr_sample : Z -> nat -> list Z;
}.

(** The two flags of the controller that the front ends write. *)
Record run_flags := RunFlags { flag_in_run : bool; flag_sim_is_paused : bool }.

(** The front ends: the GTK main loop and the terminal.  One iteration of
    the main loop runs the handlers of one event; what the engine reads
    back from them is the two run flags. *)
Class FrontEnd := {
  World : Type;
  gui : Type;
  gtk_events_pending : World -> bool;
  gtk_main_iteration : World -> run_flags -> World * run_flags;
  gdk_threads_add_idle_update_fr_labels : gui -> World -> World;
  init_tty : World -> World;
  process_input : Z -> Z -> World -> run_flags -> World * run_flags;
  reset_tty : World -> World;
}.

(** ** control.cpp: data *)

Inductive vis_mode := GUI | TUI | NO_VIS.

Inductive cell_type := MF | GR | GO | BC | SC | PC | IO | DCN.

Definition NUM_CELL_TYPES : nat := 8.

(** The position of a cell type in [spike_sums], [cell_spikes] and
    [firing_rates]: the enumerators in the order in which
    [initialize_spike_sums] and [update_spike_sums] list them, eight in
    all. *)
Definition cell_index (t : cell_type) : nat :=
  match t with
  | MF => 0 | GR => 1 | GO => 2 | BC => 3
  | SC => 4 | PC => 5 | IO => 6 | DCN => 7
  end%nat.

(** [ct_uint32_t] arithmetic. *)
Definition uint32_modulus : Z := 2 ^ 32.

(** Modelled from the spec: the struct of the spike sums is declared in
    control.h, which is not among the sources; section 3 gives the two
    running totals as uint64.  The per-cell counters are [ct_uint32_t] in
    control.cpp. *)
Definition spike_sum_modulus : Z := 2 ^ 64.

Record cell_spike_sums := MkSpikeSums {
  num_cells : nat;
  non_cs_spike_sum : Z;
  cs_spike_sum : Z;
  non_cs_spike_counter : list Z;
  cs_spike_counter : list Z;
}.

(** Firing rates are [float] in the source, computed in [double]; here
    they are the exact rationals, before any rounding. *)
Record cell_firing_rates := MkFiringRates {
  non_cs_mean_fr : Q;
  non_cs_median_fr : Q;
  cs_mean_fr : Q;
  cs_median_fr : Q;
}.

(** [for (int i = 0; i < n; i++) body], as a state transformer. *)
Definition for_loop {St : Type} (n : nat) (body : nat -> St -> St) (s : St) : St :=
  foldl (fun s i => body i s) s (seq 0 n).

(** [a[i]] read from an array; a read outside it (undefined behaviour in
    the source) gives 0. *)
Definition at_index (a : list Z) (i : nat) : Z := default 0 (a !! i).

Definition Zsum (l : list Z) : Z := foldr Z.add 0 l.

(** The inner loop of [update_spike_sums], for one cell type:
    [sum += spikes[j]; counter[j] += spikes[j];] for [j < num_cells]. *)
Definition add_spikes (n : nat) (spikes : list Z) (acc : Z * list Z)
  : Z * list Z :=
  for_loop n
    (fun j '(sum, counter) =>
       ((sum + at_index spikes j) mod spike_sum_modulus,
        <[j := (at_index counter j + at_index spikes j) mod uint32_modulus]>
          counter))
    acc.

Definition add_cs_spikes (spikes : list Z) (ss : cell_spike_sums)
  : cell_spike_sums :=
  let '(sum, counter) :=
    add_spikes (num_cells ss) spikes (cs_spike_sum ss, cs_spike_counter ss) in
  MkSpikeSums (num_cells ss) (non_cs_spike_sum ss) sum
    (non_cs_spike_counter ss) counter.

Definition add_non_cs_spikes (spikes : list Z) (ss : cell_spike_sums)
  : cell_spike_sums :=
  let '(sum, counter) :=
    add_spikes (num_cells ss) spikes
      (non_cs_spike_sum ss, non_cs_spike_counter ss) in
  MkSpikeSums (num_cells ss) sum (cs_spike_sum ss)
    counter (cs_spike_counter ss).

(** The outer loop: [for (int i = 0; i < NUM_CELL_TYPES; i++)], with
    [add] one of the two functions above. *)
Definition for_each_cell_type
    (add : list Z -> cell_spike_sums -> cell_spike_sums)
    (cell_spikes : list (list Z)) (spike_sums : list cell_spike_sums)
  : list cell_spike_sums :=
  for_loop NUM_CELL_TYPES
    (fun i sums =>
       match sums !! i with
       | Some ss => <[i := add (default [] (cell_spikes !! i)) ss]> sums
       | None => sums
       end)
    spike_sums.

(** [memset(a, 0, n * sizeof(ct_uint32_t))]. *)
Definition memset_zero (n : nat) (a : list Z) : list Z :=
  replicate (n `min` length a) 0 ++ drop n a.

Definition reset_cell (ss : cell_spike_sums) : cell_spike_sums :=
  MkSpikeSums (num_cells ss) 0 0
    (memset_zero (num_cells ss) (non_cs_spike_counter ss))
    (memset_zero (num_cells ss) (cs_spike_counter ss)).

(** [std::sort(a, a + n)]: the first [n] entries, ascending. *)
Definition sort_counters (n : nat) (a : list Z) : list Z :=
  merge_sort Z.le (take n a) ++ drop n a.

(** [a + b] on [ct_uint32_t]. *)
Definition uint32_add (a b : Z) : Z := (a + b) mod uint32_modulus.

(** [num_cells / 2 - 1] on [ct_uint32_t]: it wraps below zero. *)
Definition lower_middle (n : nat) : nat :=
  Z.to_nat ((Z.of_nat n / 2 - 1) mod uint32_modulus).
Definition upper_middle (n : nat) : nat := Z.to_nat (Z.of_nat n / 2).


(** The body of the loop of [calculate_firing_rates], for one cell type:
    the sorted sums and the rates. *)
Definition cell_rates (non_cs_time : Q) (ss : cell_spike_sums)
  : cell_spike_sums * cell_firing_rates :=
  let n := num_cells ss in
  let non_cs := sort_counters n (non_cs_spike_counter ss) in
  let cs := sort_counters n (cs_spike_counter ss) in
  let non_cs_median :=
    (inject_Z (uint32_add (at_index non_cs (lower_middle n))
                          (at_index non_cs (upper_middle n)))
     / (2 * non_cs_time))%Q in
  let cs_median :=
    (inject_Z (uint32_add (at_index cs (lower_middle n))
                          (at_index cs (upper_middle n)))
     / 4)%Q in
  let non_cs_mean :=
    (inject_Z (non_cs_spike_sum ss)
     / (non_cs_time * inject_Z (Z.of_nat n)))%Q in
  let cs_mean :=
    (inject_Z (cs_spike_sum ss) / (2 * inject_Z (Z.of_nat n)))%Q in
  (MkSpikeSums n (non_cs_spike_sum ss) (cs_spike_sum ss) non_cs cs,
   MkFiringRates non_cs_mean non_cs_median cs_mean cs_median).

(** The parameters that control.cpp reads as globals: the zone count and
    the population sizes (set when the connectivity parameters are
    loaded), the trial timing, and the two weights that [runTrials]
    passes on unchanged. *)
Record config `{Floats} := MkConfig {
  numMZones : nat;
  num_mf : nat; num_gr : nat; num_go : nat; num_bc : nat;
  num_sc : nat; num_pc : nat; num_io : nat; num_nc : nat;
  trialTime : Z;
  csStart : Z;
  csLength : Z;
  csPhasicSize : Z;
  homeoTuningTrials : Z;
  granuleActDetectTrials : Z;
  numTrainingTrials : Z;
  gogoW : float;
  spillFrac : float;
}.

(** What the set-up functions of the controller use and the sources do
    not hold: the constructor [CBMState(numMZones, stateFile)] that
    [init_sim_state] calls (cbmstate.cpp keeps it as a comment), on the
    files present, and the bytes that [write_con_params] and
    [write_act_params] put in front of the state. *)
Class SetupIO `{C : Components} := {
  CBMState_path :
    nat -> string -> gmap string (list byte) -> result exn CBMState;
  write_con_params : list byte;
  write_act_params : list byte;
}.

(** One call of [calcActivity] by [runTrials]: the trial, the timestep,
    and the weights [MFGO], [GOGR], [GRGO] it was given. *)
Record kernel_step `{Floats} := KernelStep {
  step_trial : Z;
  step_tts : Z;
  step_MFGO : float;
  step_GOGR : float;
  step_GRGO : float;
}.
Arguments KernelStep {_} _ _ _ _ _.
Arguments MkConfig {_} _ _ _ _ _ _ _ _ _ _ _ _ _ _ _ _ _ _.

Section Control.
Context `{C : Components} `{R : RandGen} `{SG : Stimulus} `{FE : FrontEnd}.
Context `{SIO : !SetupIO}.
Variable cfg : config.

Record Control := MkControl {
  sim_vis_mode : vis_mode;
  con_params_populated : bool;
  act_params_populated : bool;
  simState : option CBMState;
  simCore : option CBMSimCore;
  mfFreq : option ECMFPopulation;
  mfs : option PoissonRegenCells;
  spike_sums_initialized : bool;
  mfAP : list Z;
  cell_spikes : list (list Z);
  spike_sums : list cell_spike_sums;
  firing_rates : list cell_firing_rates;
  gr_indices : list Z;
  trial : Z;
  in_run : bool;
  sim_is_paused : bool;
}.

(** Assignments to one member. *)
Definition set_simState (v : option CBMState) (c : Control) : Control :=
  MkControl (sim_vis_mode c) (con_params_populated c)
    (act_params_populated c) v (simCore c) (mfFreq c) (mfs c)
    (spike_sums_initialized c) (mfAP c) (cell_spikes c)
    (spike_sums c) (firing_rates c) (gr_indices c) (trial c)
    (in_run c) (sim_is_paused c).
Definition set_mfs (v : option PoissonRegenCells) (c : Control) : Control :=
  MkControl (sim_vis_mode c) (con_params_populated c)
    (act_params_populated c) (simState c) (simCore c) (mfFreq c) v
    (spike_sums_initialized c) (mfAP c) (cell_spikes c)
    (spike_sums c) (firing_rates c) (gr_indices c) (trial c)
    (in_run c) (sim_is_paused c).
Definition set_simCore (v : option CBMSimCore) (c : Control) : Control :=
  MkControl (sim_vis_mode c) (con_params_populated c)
    (act_params_populated c) (simState c) v (mfFreq c) (mfs c)
    (spike_sums_initialized c) (mfAP c) (cell_spikes c)
    (spike_sums c) (firing_rates c) (gr_indices c) (trial c)
    (in_run c) (sim_is_paused c).
Definition set_spike_sums_initialized (v : bool) (c : Control) : Control :=
  MkControl (sim_vis_mode c) (con_params_populated c)
    (act_params_populated c) (simState c) (simCore c) (mfFreq c)
    (mfs c) v (mfAP c) (cell_spikes c) (spike_sums c)
    (firing_rates c) (gr_indices c) (trial c) (in_run c)
    (sim_is_paused c).
Definition set_mfAP (v : list Z) (c : Control) : Control :=
  MkControl (sim_vis_mode c) (con_params_populated c)
    (act_params_populated c) (simState c) (simCore c) (mfFreq c)
    (mfs c) (spike_sums_initialized c) v (cell_spikes c)
    (spike_sums c) (firing_rates c) (gr_indices c) (trial c)
    (in_run c) (sim_is_paused c).
Definition set_cell_spikes (v : list (list Z)) (c : Control) : Control :=
  MkControl (sim_vis_mode c) (con_params_populated c)
    (act_params_populated c) (simState c) (simCore c) (mfFreq c)
    (mfs c) (spike_sums_initialized c) (mfAP c) v (spike_sums c)
    (firing_rates c) (gr_indices c) (trial c) (in_run c)
    (sim_is_paused c).
Definition set_spike_sums (v : list cell_spike_sums) (c : Control) : Control :=
  MkControl (sim_vis_mode c) (con_params_populated c)
    (act_params_populated c) (simState c) (simCore c) (mfFreq c)
    (mfs c) (spike_sums_initialized c) (mfAP c) (cell_spikes c) v
    (firing_rates c) (gr_indices c) (trial c) (in_run c)
    (sim_is_paused c).
Definition set_firing_rates (v : list cell_firing_rates) (c : Control) : Control :=
  MkControl (sim_vis_mode c) (con_params_populated c)
    (act_params_populated c) (simState c) (simCore c) (mfFreq c)
    (mfs c) (spike_sums_initialized c) (mfAP c) (cell_spikes c)
    (spike_sums c) v (gr_indices c) (trial c) (in_run c)
    (sim_is_paused c).
Definition set_gr_indices (v : list Z) (c : Control) : Control :=
  MkControl (sim_vis_mode c) (con_params_populated c)
    (act_params_populated c) (simState c) (simCore c) (mfFreq c)
    (mfs c) (spike_sums_initialized c) (mfAP c) (cell_spikes c)
    (spike_sums c) (firing_rates c) v (trial c) (in_run c)
    (sim_is_paused c).
Definition set_trial (v : Z) (c : Control) : Control :=
  MkControl (sim_vis_mode c) (con_params_populated c)
    (act_params_populated c) (simState c) (simCore c) (mfFreq c)
    (mfs c) (spike_sums_initialized c) (mfAP c) (cell_spikes c)
    (spike_sums c) (firing_rates c) (gr_indices c) v (in_run c)
    (sim_is_paused c).
Definition set_in_run (v : bool) (c : Control) : Control :=
  MkControl (sim_vis_mode c) (con_params_populated c)
    (act_params_populated c) (simState c) (simCore c) (mfFreq c)
    (mfs c) (spike_sums_initialized c) (mfAP c) (cell_spikes c)
    (spike_sums c) (firing_rates c) (gr_indices c) (trial c) v
    (sim_is_paused c).
Definition set_sim_is_paused (v : bool) (c : Control) : Control :=
  MkControl (sim_vis_mode c) (con_params_populated c)
    (act_params_populated c) (simState c) (simCore c) (mfFreq c)
    (mfs c) (spike_sums_initialized c) (mfAP c) (cell_spikes c)
    (spike_sums c) (firing_rates c) (gr_indices c) (trial c)
    (in_run c) v.

(** *** Set-up and saving *)

(** [Control::init_sim_state].  [err] is what has been written to
    [stderr], one entry per [fprintf]. *)
Definition init_sim_state (stateFile : string) (c : Control)
    (fs : gmap string (list byte)) (err : list string)
  : result exn (Control * list string) :=
  if negb (con_params_populated c) then
    Ok (c, err ++
      ["[ERROR]: Trying to initialize state without first connectivity params.";
       "[ERROR]: (Hint: Load a connectivity parameter file first then load the state."])
  else if negb (act_params_populated c) then
    Ok (c, err ++
      ["[ERROR]: Trying to initialize state without first initializing activity params.";
       "[ERROR]: (Hint: Load an activity parameter file first then load the state."])
  else
    match simState c with
    | None =>
        let* st := CBMState_path (numMZones cfg) stateFile fs in
        Ok (set_simState (Some st) c, err)
    | Some _ => Ok (c, err ++ ["[ERROR]: State already initialized."])
    end.





(** *** Spike sums *)

(** [Control::initialize_spike_sums]. *)
Definition initialize_spike_sums (c : Control) : Control :=
  let sizes :=
    [num_mf cfg; num_gr cfg; num_go cfg; num_bc cfg;
     num_sc cfg; num_pc cfg; num_io cfg; num_nc cfg] in
  let sums :=
    (fun n => MkSpikeSums n 0 0 (replicate n 0) (replicate n 0)) <$> sizes in
  set_spike_sums_initialized true (set_spike_sums sums c).

(** The first eight statements of [update_spike_sums]: the spike
    vectors, by cell type.  [None] is a null [simCore] or an empty zone
    list, where the source dereferences them all the same. *)
Definition export_cell_spikes (c : Control) : option (list (list Z)) :=
  core ← simCore c;
  zone0 ← getMZoneList core !! 0%nat;
  Some [mfAP c;
        exportAPGR (getInputNet core);
        exportAPGO (getInputNet core);
        exportAPBC zone0;
        exportAPSC (getInputNet core);
        exportAPPC zone0;
        exportAPIO zone0;
        exportAPNC zone0].

(** The two branches of [update_spike_sums]. *)
Definition add_cell_spikes (tts : Z) (cell_spikes : list (list Z))
    (sums : list cell_spike_sums) : list cell_spike_sums :=
  if (csStart cfg <=? tts) && (tts <? csStart cfg + csLength cfg) then
    for_each_cell_type add_cs_spikes cell_spikes sums
  else if tts <? csStart cfg then
    for_each_cell_type add_non_cs_spikes cell_spikes sums
  else sums.

(** [Control::update_spike_sums]. *)
Definition update_spike_sums (tts : Z) (c : Control) : option Control :=
  spikes ← export_cell_spikes c;
  Some (set_spike_sums (add_cell_spikes tts spikes (spike_sums c))
          (set_cell_spikes spikes c)).

(** [Control::reset_spike_sums]. *)
Definition reset_spike_sums (c : Control) : Control :=
  set_spike_sums
    (for_loop NUM_CELL_TYPES
       (fun i sums =>
          match sums !! i with
          | Some ss => <[i := reset_cell ss]> sums
          | None => sums
          end)
       (spike_sums c))
    c.

(** [Control::calculate_firing_rates]. *)
Definition calculate_firing_rates (c : Control) : Control :=
  let non_cs_time := (inject_Z (csStart cfg - 1) / 1000)%Q in
  let '(sums, rates) :=
    for_loop NUM_CELL_TYPES
      (fun i '(sums, rates) =>
         match sums !! i with
         | Some ss =>
             let '(ss', fr) := cell_rates non_cs_time ss in
             (<[i := ss']> sums, <[i := fr]> rates)
         | None => (sums, rates)
         end)
      (spike_sums c, firing_rates c) in
  set_firing_rates rates (set_spike_sums sums c).

(** *** The trial loop *)

(** The controller, the front ends' world, and the calls of
    [calcActivity] made so far, oldest first. *)
Record run_state := RunState {
  run_control : Control;
  run_world : World;
  run_steps : list kernel_step;
}.

(** How a run ends: the loop is left; or it is still in the busy-wait
    of a pause when the fuel of the model is spent; or the recursion
    bound of the trial loop is reached; or a null pointer or an empty
    zone list is dereferenced. *)
Inductive outcome :=
| Finished (s : run_state)
| Waiting (s : run_state)
| OutOfFuel (s : run_state)
| Fault.

Definition flags_of (c : Control) : run_flags :=
  RunFlags (in_run c) (sim_is_paused c).

Definition set_flags (f : run_flags) (c : Control) : Control :=
  set_sim_is_paused (flag_sim_is_paused f) (set_in_run (flag_in_run f) c).

(** The body of the loop over [tts].  The local accumulators
    [goSpkCounter], [gGRGO_sum] and [gMFGO_sum], filled during the CS
    window and read by nothing (their report is commented out), and the
    messages to [std::cout] are left out. *)
Definition timestep (MFGO GOGR GRGO : float) (g : option gui) (tts : Z)
    (s : run_state) : option run_state :=
  let c := run_control s in
  core ← simCore c;
  freq ← mfFreq c;
  cells ← mfs c;
  let core :=
    if tts =? csStart cfg + csLength cfg
    then updateErrDrive 0%nat float_0_3 core else core in
  let '(ap, cells) :=
    if (tts <? csStart cfg) || (csStart cfg + csLength cfg <=? tts) then
      calcPoissActivity (getMFBG freq) (getMZoneList core) cells
    else if (csStart cfg <=? tts) && (tts <? csStart cfg + csPhasicSize cfg) then
      calcPoissActivity (getMFFreqInCSPhasic freq) (getMZoneList core) cells
    else
      calcPoissActivity (getMFInCSTonicA freq) (getMZoneList core) cells in
  let '(isTrueMF, cells) := calcTrueMFs (getMFBG freq) cells in
  let core := updateTrueMFs isTrueMF core in
  let core := updateMFInput ap core in
  let core := calcActivity MFGO GOGR GRGO (gogoW cfg) (spillFrac cfg) core in
  let c := set_mfAP ap (set_mfs (Some cells) (set_simCore (Some core) c)) in
  let steps := run_steps s ++ [KernelStep (trial c) tts MFGO GOGR GRGO] in
  c ← (if g is Some _ then update_spike_sums tts c else Some c);
  let '(w, flags) :=
    match g with
    | Some _ =>
        if gtk_events_pending (run_world s)
        then gtk_main_iteration (run_world s) (flags_of c)
        else (run_world s, flags_of c)
    | None =>
        match sim_vis_mode c with
        | TUI => process_input tts (trial c + 1) (run_world s) (flags_of c)
        | _ => (run_world s, flags_of c)
        end
    end in
  Some (RunState (set_flags flags c) w steps).

(** [for (int tts = 0; tts < trialTime; tts++)]: [k] timesteps from
    [tts] on. *)
Fixpoint run_timesteps (MFGO GOGR GRGO : float) (g : option gui)
    (k : nat) (tts : Z) (s : run_state) : option run_state :=
  match k with
  | O => Some s
  | S k' =>
      s ← timestep MFGO GOGR GRGO g tts s;
      run_timesteps MFGO GOGR GRGO g k' (tts + 1) s
  end.

(** The busy-wait of a pause,
    [while (in_run) { if (gtk_events_pending() || sim_is_paused)
    gtk_main_iteration(); else break; }]; the boolean tells whether it
    was left within [fuel] iterations. *)
Fixpoint pause_loop (fuel : nat) (w : World) (f : run_flags)
  : World * run_flags * bool :=
  if flag_in_run f then
    if gtk_events_pending w || flag_sim_is_paused f then
      match fuel with
      | O => (w, f, false)
      | S fuel' =>
          let '(w, f) := gtk_main_iteration w f in pause_loop fuel' w f
      end
    else (w, f, true)
  else (w, f, true).

(** The body of the loop over the trials. *)
Definition run_trial (fuel : nat) (MFGO GOGR GRGO : float) (g : option gui)
    (s : run_state) : outcome :=
  let after_timesteps :=
    if homeoTuningTrials cfg <=? trial (run_control s) then
      run_timesteps MFGO GOGR GRGO g (Z.to_nat (trialTime cfg)) 0 s
    else Some s in
  match after_timesteps with
  | None => Fault
  | Some s =>
      match g with
      | Some gh =>
          let c := calculate_firing_rates (run_control s) in
          let w := gdk_threads_add_idle_update_fr_labels gh (run_world s) in
          let '(w, f, resumed) :=
            if sim_is_paused c then pause_loop fuel w (flags_of c)
            else (w, flags_of c, true) in
          let c := set_flags f c in
          if resumed then
            let c := reset_spike_sums c in
            Finished (RunState (set_trial (trial c + 1) c) w (run_steps s))
          else Waiting (RunState c w (run_steps s))
      | None =>
          let c := run_control s in
          Finished (RunState (set_trial (trial c + 1) c) (run_world s)
                      (run_steps s))
      end
  end.

(** [while (trial < numTotalTrials && in_run)], at most [n] trials. *)
Fixpoint while_trials (n fuel : nat) (numTotalTrials : Z)
    (MFGO GOGR GRGO : float) (g : option gui) (s : run_state) : outcome :=
  if (trial (run_control s) <? numTotalTrials) && in_run (run_control s) then
    match n with
    | O => OutOfFuel s
    | S n' =>
        match run_trial fuel MFGO GOGR GRGO g s with
        | Finished s =>
            while_trials n' fuel numTotalTrials MFGO GOGR GRGO g s
        | o => o
        end
    end
  else Finished s.

(** [Control::runTrials].  [fuel] bounds each busy-wait of a pause. *)
Definition runTrials (fuel : nat) (simNum : Z) (GOGR GRGO MFGO : float)
    (g : option gui) (c : Control) (w : World) : outcome :=
  let preTrialNumber := homeoTuningTrials cfg + granuleActDetectTrials cfg in
  let numTotalTrials := preTrialNumber + numTrainingTrials cfg in
  let c := set_gr_indices (gen_gr_sample 4096 (num_gr cfg)) c in
  let GOGR := float_0_017 in
  let GRGO := float_0_0007_x_0_9 in
  let MFGO := float_0_00350_x_0_9 in
  let w := match sim_vis_mode c with TUI => init_tty w | _ => w end in
  let c := set_in_run true c in
  let c := set_trial 0 c in
  match
    while_trials (Z.to_nat numTotalTrials) fuel numTotalTrials
      MFGO GOGR GRGO g (RunState c w [])
  with
  | Finished s =>
      let w := match sim_vis_mode (run_control s) with
               | TUI => reset_tty (run_world s)
               | _ => run_world s
               end in
      Finished (RunState (set_in_run false (run_control s)) w (run_steps s))
  | o => o
  end.



(** The kernel calls of one whole trial [t], with the weights given. *)
Definition trial_kernel_steps (MFGO GOGR GRGO : float) (t : Z)
  : list kernel_step :=
  (fun k => KernelStep t k MFGO GOGR GRGO) <$> seqZ 0 (trialTime cfg).

End Control.

(** ** Properties of the interfaces, and the predicates of the statements *)

(** Each sub-state record reads back what it wrote, and leaves the rest
    of the stream: by its constructor from a stream (with the plasticity
    [plast] for the zone activity), and by [readState] on an existing
    record. *)
Class ComponentsRoundTrip `{C : Components} (plast : plasticity) : Prop := {
  innetCon_file_write x rest :
    InNetConnectivityState_file (open_stream (innetCon_writeState x ++ rest))
    = Ok (x, open_stream rest);
  innetAct_file_write x rest :
    InNetActivityState_file (open_stream (innetAct_writeState x ++ rest))
    = Ok (x, open_stream rest);
  mzoneCon_file_write x rest :
    MZoneConnectivityState_file (open_stream (mzoneCon_writeState x ++ rest))
    = Ok (x, open_stream rest);
  mzoneAct_file_write x rest :
    MZoneActivityState_file plast (open_stream (mzoneAct_writeState x ++ rest))
    = Ok (x, open_stream rest);
  innetCon_read_write old x rest :
    innetCon_readState old (open_stream (innetCon_writeState x ++ rest))
    = Ok (x, open_stream rest);
  innetAct_read_write old x rest :
    innetAct_readState old (open_stream (innetAct_writeState x ++ rest))
    = Ok (x, open_stream rest);
  mzoneCon_read_write old x rest :
    mzoneCon_readState old (open_stream (mzoneCon_writeState x ++ rest))
    = Ok (x, open_stream rest);
  mzoneAct_read_write old x rest :
    mzoneAct_readState old (open_stream (mzoneAct_writeState x ++ rest))
    = Ok (x, open_stream rest);
}.

Definition returns {E A} (r : result E A) : Prop := exists a, r = Ok a.

(** No sub-state record throws while reading, whatever the stream. *)
Class ComponentsNeverThrow `{C : Components} : Prop := {
  innetCon_file_returns f : returns (InNetConnectivityState_file f);
  innetAct_file_returns f : returns (InNetActivityState_file f);
  mzoneCon_file_returns f : returns (MZoneConnectivityState_file f);
  mzoneAct_file_returns p f : returns (MZoneActivityState_file p f);
  innetCon_read_returns x f : returns (innetCon_readState x f);
  innetAct_read_returns x f : returns (innetAct_readState x f);
  mzoneCon_read_returns x f : returns (mzoneCon_readState x f);
  mzoneAct_read_returns x f : returns (mzoneAct_readState x f);
}.

(** A spike vector of 0/1 flags. *)
Definition spike_flags (spikes : list Z) : Prop :=
  Forall (fun f => f = 0 \/ f = 1) spikes.

(** The sum of the first [n] flags of a spike vector. *)
Definition flags_total (n : nat) (spikes : list Z) : Z :=
  Zsum (at_index spikes <$> seq 0 n).

(** [adds_flags n spikes before after]: a running total and its per-cell
    counters, [before] and [after] each of the first [n] cells had its
    flag added, to the total (a 64-bit sum) and to its own counter (a
    32-bit one); the other counters are as they were. *)
Definition adds_flags (n : nat) (spikes : list Z)
    (before after : Z * list Z) : Prop :=
  after.1 = (before.1 + flags_total n spikes) mod spike_sum_modulus
  /\ length after.2 = length before.2
  /\ (forall j, (j < n)%nat ->
        at_index after.2 j
        = (at_index before.2 j + at_index spikes j) mod uint32_modulus)
  /\ (forall j, (n <= j)%nat -> after.2 !! j = before.2 !! j).



(** Every counter of the list is between 0 and [n]. *)
Definition counters_within (n : nat) (a : list Z) : Prop :=
  Forall (fun x => 0 <= x <= Z.of_nat n) a.

(** The two sums of a cell type are the sums of its counters. *)
Definition sums_conserved (ss : cell_spike_sums) : Prop :=
  cs_spike_sum ss = Zsum (cs_spike_counter ss) /\
  non_cs_spike_sum ss = Zsum (non_cs_spike_counter ss).

(** The sums of one cell type after [n] updates since they were last
    zeroed: the arrays have their length, the cell count fits 32 bits,
    and as long as [n] does too, no counter exceeds [n] and the sums are
    those of the counters. *)
Definition cell_tracked (n : nat) (ss : cell_spike_sums) : Prop :=
  length (cs_spike_counter ss) = num_cells ss
  /\ length (non_cs_spike_counter ss) = num_cells ss
  /\ Z.of_nat (num_cells ss) < uint32_modulus
  /\ (Z.of_nat n < uint32_modulus ->
        counters_within n (cs_spike_counter ss)
        /\ counters_within n (non_cs_spike_counter ss)
        /\ sums_conserved ss).

(** The population sizes are values of [ct_uint32_t]. *)
Definition population_sizes_fit `{Floats} (cfg : config) : Prop :=
  Forall (fun n => Z.of_nat n < uint32_modulus)
    [num_mf cfg; num_gr cfg; num_go cfg; num_bc cfg;
     num_sc cfg; num_pc cfg; num_io cfg; num_nc cfg].

Section Reachable.
Context `{C : Components} `{R : RandGen} `{SG : Stimulus} `{FE : FrontEnd}.
Context `{SIO : !SetupIO}.
Variable cfg : config.

(** [tracked n c]: the controller [c] is reached from
    [initialize_spike_sums] by spike-sum updates (on vectors of 0/1
    flags) and resets, whatever else changed its other members in
    between, with [n] updates since the initialization or the last
    reset. *)
Inductive tracked : nat -> Control -> Prop :=
| tracked_init c :
    tracked 0 (initialize_spike_sums cfg c)
| tracked_update n tts c c' :
    tracked n c ->
    update_spike_sums cfg tts c = Some c' ->
    Forall spike_flags (cell_spikes c') ->
    tracked (S n) c'
| tracked_reset n c :
    tracked n c -> tracked 0 (reset_spike_sums c)
| tracked_other n c c' :
    tracked n c -> spike_sums c' = spike_sums c -> tracked n c'.


(** A controller whose kernel and generators are in place. *)
Definition engine_ready (c : Control) : Prop :=
  is_Some (simCore c) /\ is_Some (mfFreq c) /\ is_Some (mfs c).

Definition outcome_state (o : outcome) : option run_state :=
  match o with
  | Finished s | Waiting s | OutOfFuel s => Some s
  | Fault => None
  end.
End Reachable.

(** ** Instances for the examples *)

Section ExampleInstances.

(** Modelled from the spec: the four sub-state records are not among the
    sources.  Section 6 gives the state file as the raw bytes of each record in
    turn, with no header, length or tag.  A record here is one byte, read
    as [istream::read] reads (the [rawBytesRW] of control.cpp): nothing is
    thrown; on an exhausted stream the fail bit is set and the record
    keeps the bytes it had ([x00] for a new one). *)
Definition raw_read (old : byte) (f : fstream) : byte * fstream :=
  if stream_fail f then (old, f)
  else match stream_bytes f with
       | b :: rest => (b, Fstream rest false)
       | [] => (old, Fstream [] true)
       end.

Definition byte_of_Z (z : Z) : byte :=
  default x00 (Byte.of_N (Z.to_N (z mod 256))).

Instance raw_components : Components := {|
  exn := string;
  plasticity := unit;
  InNetConnectivityState := byte;
  InNetActivityState := byte;
  MZoneConnectivityState := byte;
  MZoneActivityState := byte;
  InNetConnectivityState_seed := byte_of_Z;
  InNetActivityState_new := x00;
  MZoneConnectivityState_seed := byte_of_Z;
  MZoneActivityState_seed := byte_of_Z;
  InNetConnectivityState_file f := Ok (raw_read x00 f);
  InNetActivityState_file f := Ok (raw_read x00 f);
  MZoneConnectivityState_file f := Ok (raw_read x00 f);
  MZoneActivityState_file _ f := Ok (raw_read x00 f);
  innetCon_readState old f := Ok (raw_read old f);
  innetAct_readState old f := Ok (raw_read old f);
  mzoneCon_readState old f := Ok (raw_read old f);
  mzoneAct_readState old f := Ok (raw_read old f);
  innetCon_writeState b := [b];
  innetAct_writeState b := [b];
  mzoneCon_writeState b := [b];
  mzoneAct_writeState b := [b];
|}.

Definition raw_plasticity : @plasticity raw_components := ().

(** Modelled from the spec: [CRandomSFMT] is not among the sources;
    section 3 asks for a seeded pseudo-random generator.  A linear congruential
    generator stands for it. *)
Instance lcg_rand : RandGen := {|
  CRandomSFMT := Z;
  CRandomSFMT_seed seed := seed;
  IRandom lo hi g :=
    let g' := (g * 1103515245 + 12345) mod 2 ^ 31 in
    (lo + g' mod (hi - lo + 1), g');
|}.

Instance rational_floats : Floats := {|
  float := Q;
  float_0_017 := (17 # 1000)%Q;
  float_0_0007_x_0_9 := ((7 # 10000) * (9 # 10))%Q;
  float_0_00350_x_0_9 := ((350 # 100000) * (9 # 10))%Q;
  float_0_3 := (3 # 10)%Q;
|}.

(** A kernel that holds its spike vectors and does not change them: the
    input network is one vector (exported for each of its cell types),
    and so is each zone. *)
Instance still_kernel : Kernel := {|
  CBMSimCore := list Z * list (list Z);
  InNet := list Z;
  MZone := list Z;
  getInputNet core := core.1;
  getMZoneList core := core.2;
  exportAPGR net := net;
  exportAPGO net := net;
  exportAPSC net := net;
  exportAPBC zone := zone;
  exportAPPC zone := zone;
  exportAPIO zone := zone;
  exportAPNC zone := zone;
  updateErrDrive _ _ core := core;
  updateTrueMFs _ core := core;
  updateMFInput _ core := core;
  calcActivity _ _ _ _ _ core := core;
  simCore_writeState _ := [];
|}.

(** A sampler that makes every mossy fibre of two fire at each call. *)
Instance steady_stimulus : Stimulus := {|
  ECMFPopulation := unit;
  PoissonRegenCells := unit;
  getMFBG _ := [];
  getMFFreqInCSPhasic _ := [];
  getMFInCSTonicA _ := [];
  calcPoissActivity _ _ cells := ([1; 1], cells);
  calcTrueMFs _ cells := ([], cells);
  gen_gr_sample _ _ := [];
|}.

(** A front end that plays a script: each pending event, when handled,
    writes the run flags it carries. *)
Instance scripted_front_end : FrontEnd := {|
  World := list run_flags;
  gui := unit;
  gtk_events_pending w := bool_decide (w <> []);
  gtk_main_iteration w f :=
    match w with
    | f' :: w' => (w', f')
    | [] => ([], f)
    end;
  gdk_threads_add_idle_update_fr_labels _ w := w;
  init_tty w := w;
  process_input _ _ w f := (w, f);
  reset_tty w := w;
|}.

(** The constructor from a file name, as the comment of cbmstate.cpp has
    it: open the file and read the state from it. *)
Instance raw_setup : SetupIO := {|
  CBMState_path nZones inFile fs :=
    let inStateFileBuffer :=
      match fs !! inFile with
      | Some bs => open_stream bs
      | None => Fstream [] true
      end in
    let* (st, _) := CBMState_file nZones () inStateFileBuffer in
    Ok st;
  write_con_params := [x01];
  write_act_params := [x02];
|}.

(** Two cells of each type, trials of 6 timesteps with the CS at
    timesteps 2 and 3, one tuning trial and two training trials. *)
Definition small_config : config :=
  MkConfig 1 2 2 2 2 2 2 2 2 6 2 2 1 1 0 2 (1 # 100)%Q (1 # 10)%Q.


(** A controller with its kernel and generators in place: every cell of
    the input network and of zone 0 fires at each timestep. *)
Definition ready_control : Control :=
  initialize_spike_sums small_config
    (MkControl NO_VIS true true None (Some ([1; 1], [[1; 1]]))
       (Some ()) (Some ()) false [1; 1] []
       [] (replicate 8 (MkFiringRates 0 0 0 0)) [] 0 false false).

(** [ready_control] after one update inside the CS window. *)
Definition after_cs_update : Control :=
  default ready_control (update_spike_sums small_config 2 ready_control).




(** A kernel like the one of [ready_control], with two more zones. *)
Definition three_zone_core : list Z * list (list Z) :=
  ([1; 1], [[1; 1]; [0; 0]; [1; 0]]).

End ExampleInstances.

(** ** Further predicates of the statements *)

Section Saving_predicates.
Context `{C : Components} `{R : RandGen} `{SG : Stimulus} `{FE : FrontEnd}.
Context `{SIO : !SetupIO}.


End Saving_predicates.

(** The sums of one cell type have [n] cells and a counter for each, in
    both arrays. *)
Definition cell_sized (n : nat) (ss : cell_spike_sums) : Prop :=
  num_cells ss = n
  /\ length (cs_spike_counter ss) = n
  /\ length (non_cs_spike_counter ss) = n.

(** The population sizes, in the order of the cell types. *)
Definition population_sizes `{Floats} (cfg : config) : list nat :=
  [num_mf cfg; num_gr cfg; num_go cfg; num_bc cfg;
   num_sc cfg; num_pc cfg; num_io cfg; num_nc cfg].

Section Run_predicates.
Context `{C : Components} `{R : RandGen} `{SG : Stimulus} `{FE : FrontEnd}.
Context `{SIO : !SetupIO}.

(** Two controllers have the same spike statistics: the spike vectors
    last recorded, the spike sums and the firing rates. *)
Definition same_statistics (c c' : Control) : Prop :=
  cell_spikes c' = cell_spikes c
  /\ spike_sums c' = spike_sums c
  /\ firing_rates c' = firing_rates c
  /\ spike_sums_initialized c' = spike_sums_initialized c.

End Run_predicates.

(** ** control.cpp: [getFileBasename] *)

(** A [std::string] is the list of its characters.  [find_last_of]: the
    position of the last character of [s] that is one of [chars], or
    [None] for [npos]. *)
Fixpoint find_last_of (chars s : list ascii) : option nat :=
  match s with
  | [] => None
  | c :: s' =>
      match find_last_of chars s' with
      | Some i => Some (S i)
      | None => if bool_decide (c ∈ chars) then Some 0%nat else None
      end
  end.

(** [s.substr(pos, n)]: the characters from [pos] on, [n] of them at
    most; [None] stands for the [std::out_of_range] thrown when [pos] is
    beyond the size of [s]. *)
Definition substr (pos n : nat) (s : list ascii) : option (list ascii) :=
  if decide (pos <= length s)%nat then Some (take n (drop pos s)) else None.

(** The two separators of ["\\/"]: the backslash (character 92) and the
    slash. *)
Definition path_separators : list ascii := ["092"%char; "/"%char].

(** [getFileBasename].  The local [name] of the source, assigned in both
    branches and read by nothing, is left out. *)
Definition getFileBasename (fullFilePath : list ascii) : option (list ascii) :=
  let sep := find_last_of path_separators fullFilePath in
  fullFilePath ←
    match sep with
    | Some sep =>
        substr (sep + 1) (length fullFilePath - sep - 1) fullFilePath
    | None => Some fullFilePath
    end;
  let dot := find_last_of ["."%char] fullFilePath in
  match dot with
  | Some dot => substr 0 dot fullFilePath
  | None => Some fullFilePath
  end.

(** ** control.cpp: [gen_gr_sample], its loop *)

Module Sampling.
Section Sampling.
(** The generator of the source is [CRandomSFMT0]; the interface of
    [CRandomSFMT] stands for it. *)
Context `{R : RandGen}.

(** How a call ends: the loop is left, with [gr_indices] as it is then;
    or the loop is still running when the fuel of the model is spent; or
    an index outside [chosen] or [gr_indices] is used. *)
Inductive sampling :=
| Sampled (gr_indices : list Z)
| StillSampling
| OutOfBounds.

(** [while (counter < sample_size)], at most [fuel] passes. *)
Fixpoint sample_loop (fuel : nat) (sample_size data_size : Z)
    (randGen : CRandomSFMT) (chosen : list bool) (counter : Z)
    (gr_indices : list Z) : sampling :=
  if counter <? sample_size then
    match fuel with
    | O => StillSampling
    | S fuel' =>
        let '(index, randGen) := IRandom 0 (data_size - 1) randGen in
        if index <? 0 then OutOfBounds
        else
          match chosen !! Z.to_nat index with
          | None => OutOfBounds
          | Some true =>
              sample_loop fuel' sample_size data_size randGen chosen counter
                gr_indices
          | Some false =>
              if decide (Z.to_nat counter < length gr_indices)%nat then
                sample_loop fuel' sample_size data_size randGen
                  (<[Z.to_nat index := true]> chosen) (counter + 1)
                  (<[Z.to_nat counter := index]> gr_indices)
              else OutOfBounds
          end
    end
  else Sampled gr_indices.

(** [gen_gr_sample(gr_indices, sample_size, data_size)].  [chosen] has
    [data_size] entries, none for a negative [data_size]. *)
Definition gen_gr_sample (fuel : nat) (gr_indices : list Z)
    (sample_size data_size : Z) : sampling :=
  let randGen := CRandomSFMT_seed 0 in
  let chosen := replicate (Z.to_nat data_size) false in
  let counter := 0 in
  sample_loop fuel sample_size data_size randGen chosen counter gr_indices.

(** The first [k] values of [IRandom(0, data_size - 1)]. *)
Fixpoint index_draws (k : nat) (data_size : Z) (randGen : CRandomSFMT)
  : list Z :=
  match k with
  | O => []
  | S k' => let '(index, randGen) := IRandom 0 (data_size - 1) randGen in
            index :: index_draws k' data_size randGen
  end.

End Sampling.
End Sampling.

(** ** control.cpp: [countGOSpikes] *)

Section GolgiReport.
Context `{Floats}.
Variable cfg : config.


End GolgiReport.

(** ** control.cpp: [runExperiment] *)



Section Experiment.
Context `{C : Components} `{R : RandGen} `{SG : Stimulus} `{FE : FrontEnd}.
Context `{SIO : !SetupIO}.
Variable cfg : config.

(** The value of the literal [0.0] as a [float], and the three weights
    that control.cpp reads as globals. *)
Variable float_0_0 : float.
Variables mfgoW gogrW grgoW : float.












End Experiment.

(** ** Further data for the examples *)

Section FurtherExampleData.
Existing Instance raw_components.
Existing Instance lcg_rand.
Existing Instance rational_floats.
Existing Instance still_kernel.
Existing Instance steady_stimulus.
Existing Instance scripted_front_end.
Existing Instance raw_setup.




End FurtherExampleData.

(** * Theorems *)

(** ** The state container *)

Section CBMState_facts.
Context `{C : Components} `{R : RandGen}.

Lemma new_zones_seeded_length nZones randGen zcons zacts randGen' :
  new_zones_seeded nZones randGen = (zcons, zacts, randGen') ->
  length zcons = nZones /\ length zacts = nZones.
Proof.
  revert randGen zcons zacts randGen'.
  induction nZones as [|n IH]; intros g zc za g'; simpl.
  - intros [= <- <- _]. done.
  - destruct (IRandom 0 INT_MAX g) as [cr g1].
    destruct (IRandom 0 INT_MAX g1) as [ar g2].
    destruct (new_zones_seeded n g2) as [[zc' za'] g3] eqn:E.
    intros [= <- <- _]. destruct (IH _ _ _ _ E). simpl. lia.
Qed.

Lemma CBMState_new_allocated time_0 nZones :
  numZones (CBMState_new time_0 nZones) = nZones /\
  zones_allocated (CBMState_new time_0 nZones).
Proof.
  unfold CBMState_new, zones_allocated.
  destruct (IRandom 0 INT_MAX (CRandomSFMT_seed time_0)) as [seed g].
  destruct (new_zones_seeded nZones g) as [[zc za] g'] eqn:E.
  simpl. destruct (new_zones_seeded_length _ _ _ _ _ E). auto.
Qed.

Lemma zone_bytes_cons con act zcons zacts :
  zone_bytes (con :: zcons) (act :: zacts)
  = mzoneCon_writeState con ++ mzoneAct_writeState act ++ zone_bytes zcons zacts.
Proof. reflexivity. Qed.

Lemma write_zones_spec k : forall i zcons zacts out,
  (i + k)%nat = length zcons -> length zacts = length zcons ->
  write_zones k i zcons zacts out
  = out ++ zone_bytes (drop i zcons) (drop i zacts).
Proof.
  induction k as [|k IH]; intros i zc za out Hk Hl; simpl.
  - rewrite !drop_ge by lia. unfold zone_bytes. simpl. by rewrite app_nil_r.
  - destruct (lookup_lt_is_Some_2 zc i) as [con Hc]; [lia|].
    destruct (lookup_lt_is_Some_2 za i) as [act Ha]; [lia|].
    rewrite Hc, Ha, IH by lia.
    rewrite (drop_S zc con i Hc), (drop_S za act i Ha), zone_bytes_cons.
    by rewrite <- !app_assoc.
Qed.

Lemma writeState_spec s out :
  zones_allocated s -> writeState s out = out ++ concat (fields_in_order s).
Proof.
  intros [Hc Ha]. unfold writeState, fields_in_order.
  rewrite write_zones_spec by (simpl; lia). simpl.
  by rewrite <- !app_assoc.
Qed.

Lemma new_zones_file_write plast `{!ComponentsRoundTrip plast} zcons :
  forall zacts rest, length zacts = length zcons ->
  new_zones_file (length zcons) plast
    (open_stream (zone_bytes zcons zacts ++ rest))
  = Ok (zcons, zacts, open_stream rest).
Proof.
  induction zcons as [|con zc IH]; intros [|act za] rest Hl; try done.
  simpl in Hl. simpl length. cbn [new_zones_file].
  rewrite zone_bytes_cons, <- !app_assoc, mzoneCon_file_write. simpl.
  rewrite mzoneAct_file_write. simpl.
  rewrite IH by lia. done.
Qed.

Lemma read_zones_write plast `{!ComponentsRoundTrip plast} k :
  forall i old_cons old_acts zcons zacts rest,
  (i + k)%nat = length zcons -> length zacts = length zcons ->
  length old_cons = length zcons -> length old_acts = length zcons ->
  read_zones k i old_cons old_acts
    (open_stream (zone_bytes (drop i zcons) (drop i zacts) ++ rest))
  = Ok (take i old_cons ++ drop i zcons, take i old_acts ++ drop i zacts,
        open_stream rest).
Proof.
  induction k as [|k IH]; intros i oc oa zc za rest Hk Hl Hoc Hoa; simpl.
  - rewrite !drop_ge, !app_nil_r, !take_ge by lia. done.
  - destruct (lookup_lt_is_Some_2 zc i) as [con Hc]; [lia|].
    destruct (lookup_lt_is_Some_2 za i) as [act Ha]; [lia|].
    destruct (lookup_lt_is_Some_2 oc i) as [con0 Hc0]; [lia|].
    destruct (lookup_lt_is_Some_2 oa i) as [act0 Ha0]; [lia|].
    rewrite Hc0, Ha0.
    rewrite (drop_S zc con i Hc), (drop_S za act i Ha), zone_bytes_cons.
    rewrite <- !app_assoc, mzoneCon_read_write. simpl.
    rewrite mzoneAct_read_write. simpl.
    rewrite IH by (rewrite ?length_insert; lia).
    rewrite !take_S_r with (x := con) by (apply list_lookup_insert_eq; lia).
    rewrite !take_S_r with (x := act) by (apply list_lookup_insert_eq; lia).
    rewrite !take_insert_ge by lia.
    by rewrite <- !app_assoc.
Qed.

Lemma CBMState_file_write plast `{!ComponentsRoundTrip plast} s rest :
  zones_allocated s ->
  CBMState_file (numZones s) plast (open_stream (writeState s [] ++ rest))
  = Ok (s, open_stream rest).
Proof.
  intros Hs. rewrite writeState_spec by done. destruct Hs as [Hc Ha].
  unfold CBMState_file, fields_in_order. simpl.
  rewrite <- !app_assoc, innetCon_file_write. simpl.
  rewrite innetAct_file_write. simpl.
  rewrite <- Hc.
  rewrite (new_zones_file_write plast (mzoneConStates s) (mzoneActStates s))
    by lia.
  simpl. rewrite Hc. by destruct s.
Qed.

Lemma readState_write plast `{!ComponentsRoundTrip plast} old s rest :
  zones_allocated s -> zones_allocated old -> numZones old = numZones s ->
  readState old (open_stream (writeState s [] ++ rest))
  = Ok (s, open_stream rest).
Proof.
  intros Hs [Hoc Hoa] Hn. rewrite writeState_spec by done.
  destruct Hs as [Hc Ha].
  unfold readState, fields_in_order. simpl.
  rewrite <- !app_assoc, innetCon_read_write. simpl.
  rewrite innetAct_read_write. simpl.
  pose proof (read_zones_write plast (numZones old) 0%nat
                (mzoneConStates old) (mzoneActStates old)
                (mzoneConStates s) (mzoneActStates s) rest) as Hr.
  rewrite !drop_0 in Hr. unfold zone_bytes in Hr. rewrite Hr by lia.
  simpl. rewrite Hn. by destruct s.
Qed.

(** C1.  For every zone count Z >= 1 and every state S created by the
    generative constructor, [writeState] appends the fields in file
    order (input-network connectivity, input-network activity, then for
    each zone in index order its connectivity and its activity), and
    reading that stream back, by the constructor from a stream or by
    [readState] on any state of Z zones, gives exactly S and leaves the
    rest of the stream; provided each sub-state record reads back what
    it wrote. *)
Theorem serialize_restore_round_trip
    (plast : plasticity) (RT : ComponentsRoundTrip plast)
    (nZones : nat) (time_0 : Z) (out rest : list byte) (old : CBMState) :
  (1 <= nZones)%nat ->
  numZones old = nZones -> zones_allocated old ->
  let s := CBMState_new time_0 nZones in
  writeState s out = out ++ concat (fields_in_order s)
  /\ CBMState_file nZones plast (open_stream (writeState s [] ++ rest))
     = Ok (s, open_stream rest)
  /\ readState old (open_stream (writeState s [] ++ rest))
     = Ok (s, open_stream rest).
Proof.
  intros _ Hold Hwf s.
  destruct (CBMState_new_allocated time_0 nZones) as [Hn Hs].
  fold s in Hn, Hs. split; [|split].
  - by apply writeState_spec.
  - rewrite <- Hn at 1. by apply (CBMState_file_write plast).
  - apply (readState_write plast); [done..|]. by rewrite Hn.
Qed.

Lemma new_zones_file_returns `{!ComponentsNeverThrow} nZones plast : forall f,
  exists zcons zacts f',
    new_zones_file nZones plast f = Ok (zcons, zacts, f')
    /\ length zcons = nZones /\ length zacts = nZones.
Proof.
  induction nZones as [|n IH]; intros f; simpl.
  - by exists [], [], f.
  - destruct (mzoneCon_file_returns f) as [[con f1] ->]. simpl.
    destruct (mzoneAct_file_returns plast f1) as [[act f2] ->]. simpl.
    destruct (IH f2) as (zc & za & f3 & -> & Hc & Ha). simpl.
    exists (con :: zc), (act :: za), f3. simpl. auto.
Qed.

Lemma read_zones_returns `{!ComponentsNeverThrow} k : forall i zcons zacts f,
  exists zcons' zacts' f',
    read_zones k i zcons zacts f = Ok (zcons', zacts', f')
    /\ length zcons' = length zcons /\ length zacts' = length zacts.
Proof.
  induction k as [|k IH]; intros i zc za f; simpl.
  - by exists zc, za, f.
  - destruct (zc !! i) as [con|]; [destruct (za !! i) as [act|]|]; try apply IH.
    destruct (mzoneCon_read_returns con f) as [[con' f1] ->]. simpl.
    destruct (mzoneAct_read_returns act f1) as [[act' f2] ->]. simpl.
    destruct (IH (S i) (<[i:=con']> zc) (<[i:=act']> za) f2)
      as (zc' & za' & f3 & -> & Hc & Ha).
    rewrite length_insert in Hc. rewrite length_insert in Ha.
    by exists zc', za', f3.
Qed.

(** C2, as the code has it.  Neither the constructor from a stream nor
    [readState] checks the stream: they fail only if a sub-state record
    throws.  With records that do not throw, they return a state for
    every stream, however short, with all its zones allocated. *)
Theorem restore_returns_unless_a_record_throws
    (NT : ComponentsNeverThrow)
    (nZones : nat) (plast : plasticity) (f : fstream) (old : CBMState) :
  (exists s f', CBMState_file nZones plast f = Ok (s, f')
                /\ numZones s = nZones /\ zones_allocated s)
  /\ (exists s f', readState old f = Ok (s, f')
                   /\ numZones s = numZones old
                   /\ length (mzoneConStates s) = length (mzoneConStates old)
                   /\ length (mzoneActStates s) = length (mzoneActStates old)).
Proof.
  split.
  - unfold CBMState_file.
    destruct (innetCon_file_returns f) as [[con f1] ->]. simpl.
    destruct (innetAct_file_returns f1) as [[act f2] ->]. simpl.
    destruct (new_zones_file_returns nZones plast f2)
      as (zc & za & f3 & -> & Hc & Ha). simpl.
    eexists _, _. split; [done|]. by unfold zones_allocated.
  - unfold readState.
    destruct (innetCon_read_returns (innetConState old) f) as [[con f1] ->].
    simpl.
    destruct (innetAct_read_returns (innetActState old) f1) as [[act f2] ->].
    simpl.
    destruct (read_zones_returns (numZones old) 0%nat (mzoneConStates old)
                (mzoneActStates old) f2) as (zc & za & f3 & -> & Hc & Ha).
    simpl. eexists _, _. by split.
Qed.

Lemma draws_SS k randGen :
  draws (2 * S k) randGen
  = let '(x, g1) := IRandom 0 INT_MAX randGen in
    let '(y, g2) := IRandom 0 INT_MAX g1 in
    x :: y :: draws (2 * k) g2.
Proof.
  replace (2 * S k)%nat with (S (S (2 * k))) by lia. simpl.
  destruct (IRandom 0 INT_MAX randGen) as [x g1].
  by destruct (IRandom 0 INT_MAX g1) as [y g2].
Qed.

Lemma new_zones_seeded_draws nZones : forall randGen zcons zacts randGen',
  new_zones_seeded nZones randGen = (zcons, zacts, randGen') ->
  forall i, (i < nZones)%nat ->
    zcons !! i
    = Some (MZoneConnectivityState_seed
              (at_index (draws (2 * nZones) randGen) (2 * i)))
    /\ zacts !! i
       = Some (MZoneActivityState_seed
                 (at_index (draws (2 * nZones) randGen) (2 * i + 1))).
Proof.
  induction nZones as [|n IH]; intros g zc za g' E i Hi; [lia|].
  rewrite draws_SS. simpl in E.
  destruct (IRandom 0 INT_MAX g) as [cr g1].
  destruct (IRandom 0 INT_MAX g1) as [ar g2].
  destruct (new_zones_seeded n g2) as [[zc' za'] g3] eqn:E'.
  injection E as <- <- _.
  destruct i as [|i].
  - done.
  - destruct (IH _ _ _ _ E' i) as [Hc Ha]; [lia|].
    replace (2 * S i)%nat with (S (S (2 * i))) by lia.
    simpl. rewrite Hc, Ha. done.
Qed.

(** C7, as the code has it.  The generative constructor takes the zone
    count only and seeds its generator with [time(0)]: the state is
    determined by the zone count and that clock reading.  The
    input-network connectivity seed is the first draw, and zone [i] takes
    draws [2i+1] (connectivity) and [2i+2] (activity). *)
Theorem generative_seeds_follow_the_clock (time_0 : Z) (nZones : nat) :
  let d := draws (1 + 2 * nZones) (CRandomSFMT_seed time_0) in
  let s := CBMState_new time_0 nZones in
  numZones s = nZones
  /\ innetConState s = InNetConnectivityState_seed (at_index d 0)
  /\ innetActState s = InNetActivityState_new
  /\ length (mzoneConStates s) = nZones
  /\ length (mzoneActStates s) = nZones
  /\ forall i, (i < nZones)%nat ->
       mzoneConStates s !! i
       = Some (MZoneConnectivityState_seed (at_index d (2 * i + 1)))
       /\ mzoneActStates s !! i
          = Some (MZoneActivityState_seed (at_index d (2 * i + 2))).
Proof.
  intros d s.
  destruct (CBMState_new_allocated time_0 nZones) as [Hn [Hc Ha]].
  fold s in Hn, Hc, Ha. rewrite Hn in Hc, Ha.
  subst d s. unfold CBMState_new in *. simpl draws.
  destruct (IRandom 0 INT_MAX (CRandomSFMT_seed time_0)) as [seed g].
  destruct (new_zones_seeded nZones g) as [[zc za] g'] eqn:E.
  simpl in *. repeat split; try done.
  - replace (i + (i + 0) + 1)%nat with (S (2 * i)) by lia.
    by destruct (new_zones_seeded_draws _ _ _ _ _ E i).
  - replace (i + (i + 0) + 2)%nat with (S (2 * i + 1)) by lia.
    by destruct (new_zones_seeded_draws _ _ _ _ _ E i).
Qed.

End CBMState_facts.

(** ** Loops and counters *)

Lemma for_loop_S {St : Type} n (body : nat -> St -> St) s :
  for_loop (S n) body s = body n (for_loop n body s).
Proof. unfold for_loop. by rewrite seq_S, foldl_app. Qed.

(** The invariant rule of a counted loop. *)
Lemma for_loop_ind {St : Type} (P : nat -> St -> Prop) n
    (body : nat -> St -> St) s :
  P 0%nat s ->
  (forall i s, (i < n)%nat -> P i s -> P (S i) (body i s)) ->
  P n (for_loop n body s).
Proof.
  intros H0 Hstep. induction n as [|n IH]; [done|].
  rewrite for_loop_S. apply Hstep; [lia|]. apply IH.
  intros i s' Hi. apply Hstep. lia.
Qed.

Lemma at_index_insert_eq a i x :
  (i < length a)%nat -> at_index (<[i := x]> a) i = x.
Proof. intros H. unfold at_index. by rewrite list_lookup_insert_eq. Qed.

Lemma at_index_insert_ne a i j x :
  i <> j -> at_index (<[i := x]> a) j = at_index a j.
Proof. intros H. unfold at_index. by rewrite list_lookup_insert_ne. Qed.

Lemma flags_total_S n spikes :
  flags_total (S n) spikes = flags_total n spikes + at_index spikes n.
Proof.
  unfold flags_total. rewrite seq_S, fmap_app. simpl.
  generalize (at_index spikes <$> seq 0 n). intros l.
  induction l as [|x l IH]; simpl; lia.
Qed.

Lemma add_spikes_length n spikes acc :
  length (add_spikes n spikes acc).2 = length acc.2.
Proof.
  unfold add_spikes.
  apply (for_loop_ind (fun _ s => length s.2 = length acc.2)); [done|].
  intros i [sum counter] _ H. simpl in *. by rewrite length_insert.
Qed.

Lemma add_spikes_spec n spikes sum counter :
  (n <= length counter)%nat -> 0 <= sum < spike_sum_modulus ->
  adds_flags n spikes (sum, counter) (add_spikes n spikes (sum, counter)).
Proof.
  intros Hn Hsum. unfold add_spikes.
  apply (for_loop_ind (fun k s => (k <= n)%nat -> adds_flags k spikes (sum, counter) s));
    [| |done].
  - intros _. repeat split; simpl.
    + unfold flags_total. simpl. rewrite Z.add_0_r, Z.mod_small; lia.
    + lia.
  - intros i [s c] Hi IH Hle.
    destruct IH as (Hs & Hl & Hlt & Hge); [lia|]. simpl in *.
    repeat split; simpl.
    + rewrite Hs, flags_total_S, Zplus_mod_idemp_l. f_equal. lia.
    + by rewrite length_insert.
    + intros j Hj. destruct (decide (i = j)) as [<-|Hne].
      * rewrite at_index_insert_eq by lia.
        unfold at_index at 1. by rewrite (Hge i) by lia.
      * rewrite at_index_insert_ne by done. apply Hlt. lia.
    + intros j Hj. rewrite list_lookup_insert_ne by lia. apply Hge. lia.
Qed.

(** A loop that rewrites the entries [0 .. n-1] of an array in place. *)
Lemma for_loop_update_lookup {A : Type} (f : nat -> A -> A) n (l : list A) i :
  for_loop n
    (fun i l => match l !! i with
                | Some x => <[i := f i x]> l
                | None => l
                end) l !! i
  = if decide (i < n)%nat then f i <$> l !! i else l !! i.
Proof.
  revert i.
  apply (for_loop_ind (fun k (s : list A) => forall i,
           s !! i = if decide (i < k)%nat then f i <$> l !! i else l !! i) n).
  - intros i. by rewrite decide_False by lia.
  - intros k s _ IH i.
    pose proof (IH k) as Hk. rewrite decide_False in Hk by lia.
    destruct (decide (i = k)) as [->|Hne].
    + rewrite decide_True by lia. destruct (s !! k) as [x|] eqn:E.
      * rewrite list_lookup_insert_eq by (by eapply lookup_lt_Some).
        by rewrite <- Hk.
      * by rewrite E, <- Hk.
    + assert (s !! i = if decide (i < S k)%nat then f i <$> l !! i else l !! i)
        as Hi.
      { rewrite IH. destruct (decide (i < k)%nat), (decide (i < S k)%nat);
          try done; lia. }
      destruct (s !! k); [by rewrite list_lookup_insert_ne|done].
Qed.

Lemma for_loop_update_length {A : Type} (f : nat -> A -> A) n (l : list A) :
  length (for_loop n
            (fun i l => match l !! i with
                        | Some x => <[i := f i x]> l
                        | None => l
                        end) l)
  = length l.
Proof.
  apply (for_loop_ind (fun _ (s : list A) => length s = length l)); [done|].
  intros i s _ H. destruct (s !! i); [by rewrite length_insert|done].
Qed.

Lemma for_each_cell_type_lookup add spikes sums i :
  for_each_cell_type add spikes sums !! i
  = if decide (i < NUM_CELL_TYPES)%nat
    then add (default [] (spikes !! i)) <$> sums !! i
    else sums !! i.
Proof.
  unfold for_each_cell_type.
  apply (for_loop_update_lookup (fun i => add (default [] (spikes !! i)))).
Qed.

Lemma for_each_cell_type_length add spikes sums :
  length (for_each_cell_type add spikes sums) = length sums.
Proof.
  unfold for_each_cell_type.
  apply (for_loop_ind (fun _ (s : list cell_spike_sums) =>
                         length s = length sums)); [done|].
  intros i s _ H. destruct (s !! i); [by rewrite length_insert|done].
Qed.

Lemma cell_index_lt t : (cell_index t < NUM_CELL_TYPES)%nat.
Proof. destruct t; compute; lia. Qed.



Lemma Zsum_app l k : Zsum (l ++ k) = Zsum l + Zsum k.
Proof. induction l as [|x l IH]; simpl; lia. Qed.

Lemma Zsum_at_index l : Zsum l = Zsum (at_index l <$> seq 0 (length l)).
Proof.
  induction l as [|x l IH] using rev_ind; [done|].
  rewrite length_app, Nat.add_comm. simpl length. cbn [Nat.add].
  rewrite seq_S, fmap_app, !Zsum_app. simpl.
  unfold at_index at 2. rewrite lookup_app_r, Nat.sub_diag by lia. simpl.
  rewrite IH at 1. f_equal. f_equal.
  apply list_fmap_ext. intros i j Hj. apply lookup_seq in Hj as [-> Hj].
  unfold at_index. by rewrite lookup_app_l by lia.
Qed.

Lemma Zsum_pointwise (f g h : nat -> Z) n :
  (forall j, (j < n)%nat -> f j = g j + h j) ->
  Zsum (f <$> seq 0 n) = Zsum (g <$> seq 0 n) + Zsum (h <$> seq 0 n).
Proof.
  induction n as [|n IH]; intros H; [done|].
  rewrite seq_S, !fmap_app, !Zsum_app. simpl.
  rewrite IH, (H n) by (intros; try apply H; lia). lia.
Qed.

Lemma Zsum_within n l :
  counters_within n l -> 0 <= Zsum l <= Z.of_nat (length l) * Z.of_nat n.
Proof.
  induction 1 as [|x l Hx _ IH]; simpl length; simpl Zsum; [lia|].
  rewrite Nat2Z.inj_succ. nia.
Qed.

Lemma at_index_flag spikes j :
  spike_flags spikes -> at_index spikes j = 0 \/ at_index spikes j = 1.
Proof.
  intros H. unfold at_index. destruct (spikes !! j) as [x|] eqn:E; [|by left].
  apply (proj1 (Forall_lookup _ _) H _ _ E).
Qed.

Lemma flags_total_bounds n spikes :
  spike_flags spikes -> 0 <= flags_total n spikes <= Z.of_nat n.
Proof.
  intros H. induction n as [|n IH]; [done|].
  rewrite flags_total_S. destruct (at_index_flag spikes n H); lia.
Qed.

Lemma at_index_within n l j :
  counters_within n l -> 0 <= at_index l j <= Z.of_nat n.
Proof.
  intros H. unfold at_index. destruct (l !! j) as [x|] eqn:E; simpl; [|lia].
  apply (proj1 (Forall_lookup _ _) H _ _ E).
Qed.

(** One more update of a tally that has not wrapped: the counters grow
    by the flags, and the total is still their sum. *)
Lemma adds_flags_conserved n spikes sum counter sum' counter' :
  adds_flags (length counter) spikes (sum, counter) (sum', counter') ->
  spike_flags spikes ->
  Z.of_nat (length counter) < uint32_modulus ->
  Z.of_nat (S n) < uint32_modulus ->
  counters_within n counter -> sum = Zsum counter ->
  counters_within (S n) counter' /\ sum' = Zsum counter'.
Proof.
  intros (Hs & Hl & Hlt & _) Hf Hcells Hn Hw ->. simpl in *.
  assert (forall j, (j < length counter)%nat ->
            at_index counter' j = at_index counter j + at_index spikes j) as Hj.
  { intros j Hjlt. rewrite Hlt by done. apply Z.mod_small.
    pose proof (at_index_within n counter j Hw).
    destruct (at_index_flag spikes j Hf); unfold uint32_modulus in *; lia. }
  split.
  - apply Forall_lookup. intros j x E.
    assert (j < length counter)%nat as Hjlt
      by (rewrite <- Hl; by eapply lookup_lt_Some).
    pose proof (Hj j Hjlt) as Hx. unfold at_index at 1 in Hx.
    rewrite E in Hx. simpl in Hx.
    pose proof (at_index_within n counter j Hw).
    destruct (at_index_flag spikes j Hf); lia.
  - rewrite Hs, (Zsum_at_index counter'), Hl.
    rewrite (Zsum_pointwise _ _ _ _ Hj), <- Zsum_at_index.
    apply Z.mod_small.
    pose proof (Zsum_within n counter Hw).
    pose proof (flags_total_bounds (length counter) spikes Hf).
    fold (flags_total (length counter) spikes).
    unfold spike_sum_modulus, uint32_modulus in *. nia.
Qed.

Lemma counters_within_mono n l :
  counters_within n l -> counters_within (S n) l.
Proof.
  intros H. eapply Forall_impl; [exact H|]. intros x. simpl. lia.
Qed.

Lemma cell_tracked_idle n ss : cell_tracked n ss -> cell_tracked (S n) ss.
Proof.
  intros (Hc & Hn & Hcells & H). split_and!; try done.
  intros HS. destruct H as (Hwc & Hwn & Hcons); [lia|].
  split_and!; auto using counters_within_mono.
Qed.

Lemma cell_tracked_add_cs n spikes ss :
  spike_flags spikes -> cell_tracked n ss ->
  cell_tracked (S n) (add_cs_spikes spikes ss).
Proof.
  intros Hf (Hc & Hn & Hcells & H).
  pose proof (add_spikes_length (num_cells ss) spikes
                (cs_spike_sum ss, cs_spike_counter ss)) as Hlen.
  pose proof (add_spikes_spec (num_cells ss) spikes (cs_spike_sum ss)
                (cs_spike_counter ss)) as Hspec.
  unfold add_cs_spikes. destruct (add_spikes _ _ _) as [sum counter].
  unfold cell_tracked, sums_conserved. simpl in *.
  split_and!; try done; [lia|].
  intros HS. destruct H as (Hwc & Hwn & Hcs & Hncs); [lia|].
  pose proof (Zsum_within n _ Hwc) as Hb.
  destruct (adds_flags_conserved n spikes (cs_spike_sum ss)
              (cs_spike_counter ss) sum counter) as [Hw' Hs']; try done.
  - rewrite Hc. apply Hspec; [lia|].
    rewrite Hcs. unfold spike_sum_modulus, uint32_modulus in *. nia.
  - by rewrite Hc.
  - split_and!; auto using counters_within_mono.
Qed.

Lemma cell_tracked_add_non_cs n spikes ss :
  spike_flags spikes -> cell_tracked n ss ->
  cell_tracked (S n) (add_non_cs_spikes spikes ss).
Proof.
  intros Hf (Hc & Hn & Hcells & H).
  pose proof (add_spikes_length (num_cells ss) spikes
                (non_cs_spike_sum ss, non_cs_spike_counter ss)) as Hlen.
  pose proof (add_spikes_spec (num_cells ss) spikes (non_cs_spike_sum ss)
                (non_cs_spike_counter ss)) as Hspec.
  unfold add_non_cs_spikes. destruct (add_spikes _ _ _) as [sum counter].
  unfold cell_tracked, sums_conserved. simpl in *.
  split_and!; try done; [lia|].
  intros HS. destruct H as (Hwc & Hwn & Hcs & Hncs); [lia|].
  pose proof (Zsum_within n _ Hwn) as Hb.
  destruct (adds_flags_conserved n spikes (non_cs_spike_sum ss)
              (non_cs_spike_counter ss) sum counter) as [Hw' Hs']; try done.
  - rewrite Hn. apply Hspec; [lia|].
    rewrite Hncs. unfold spike_sum_modulus, uint32_modulus in *. nia.
  - by rewrite Hn.
  - split_and!; auto using counters_within_mono.
Qed.

Lemma Zsum_replicate_0 n : Zsum (replicate n 0) = 0.
Proof. induction n as [|n IH]; simpl; lia. Qed.

Lemma cell_tracked_zeroed n :
  Z.of_nat n < uint32_modulus ->
  cell_tracked 0 (MkSpikeSums n 0 0 (replicate n 0) (replicate n 0)).
Proof.
  intros Hn. unfold cell_tracked, counters_within, sums_conserved. simpl.
  rewrite !length_replicate, !Zsum_replicate_0.
  split_and!; try done. intros _.
  split_and!; try done; apply Forall_replicate; lia.
Qed.

Lemma memset_zero_all n a : length a = n -> memset_zero n a = replicate n 0.
Proof.
  intros <-. unfold memset_zero.
  by rewrite Nat.min_id, drop_all, app_nil_r.
Qed.

Lemma cell_tracked_reset n ss :
  cell_tracked n ss -> cell_tracked 0 (reset_cell ss).
Proof.
  intros (Hc & Hn & Hcells & _). unfold reset_cell.
  rewrite !memset_zero_all by done. by apply cell_tracked_zeroed.
Qed.

(** ** The spike statistics *)

Section Control_facts.
Context `{C : Components} `{R : RandGen} `{SG : Stimulus} `{FE : FrontEnd}.
Context `{SIO : !SetupIO}.
Variable cfg : config.


Lemma spike_sums_set_spike_sums v (c : Control) :
  spike_sums (set_spike_sums v c) = v.
Proof. done. Qed.


Lemma calculate_firing_rates_fields c :
  let non_cs_time := (inject_Z (csStart cfg - 1) / 1000)%Q in
  let r :=
    for_loop NUM_CELL_TYPES
      (fun i '(sums, rates) =>
         match sums !! i with
         | Some ss =>
             let '(ss', fr) := cell_rates non_cs_time ss in
             (<[i := ss']> sums, <[i := fr]> rates)
         | None => (sums, rates)
         end)
      (spike_sums c, firing_rates c) in
  spike_sums (calculate_firing_rates cfg c) = r.1
  /\ firing_rates (calculate_firing_rates cfg c) = r.2.
Proof.
  intros t r. unfold calculate_firing_rates. fold t. fold r. by destruct r.
Qed.

(** C10.  The spike statistics read zone 0 only: two kernels with the
    same input network and the same zone 0, whatever their other zones
    and however many they have, give the same spike vectors, the same
    spike sums and the same firing rates; and the basket, Purkinje,
    inferior-olive and nucleus vectors are those of zone 0. *)
Theorem spike_sums_read_zone_0_only (tts : Z) (c : Control) core core' :
  getInputNet core = getInputNet core' ->
  getMZoneList core !! 0%nat = getMZoneList core' !! 0%nat ->
  let u := update_spike_sums cfg tts (set_simCore (Some core) c) in
  let u' := update_spike_sums cfg tts (set_simCore (Some core') c) in
  cell_spikes <$> u = cell_spikes <$> u'
  /\ spike_sums <$> u = spike_sums <$> u'
  /\ (fun c => firing_rates (calculate_firing_rates cfg c)) <$> u
     = (fun c => firing_rates (calculate_firing_rates cfg c)) <$> u'
  /\ forall zone0, getMZoneList core !! 0%nat = Some zone0 ->
       exists c1, u = Some c1
         /\ cell_spikes c1 !! cell_index BC = Some (exportAPBC zone0)
         /\ cell_spikes c1 !! cell_index PC = Some (exportAPPC zone0)
         /\ cell_spikes c1 !! cell_index IO = Some (exportAPIO zone0)
         /\ cell_spikes c1 !! cell_index DCN = Some (exportAPNC zone0).
Proof.
  intros Hnet Hzone u u'. subst u u'.
  unfold update_spike_sums, export_cell_spikes. simpl.
  rewrite Hnet, Hzone.
  destruct (getMZoneList core' !! 0%nat) as [zone0|]; simpl.
  - split_and!; try done.
    + f_equal.
      destruct (calculate_firing_rates_fields
                  (set_spike_sums
                     (add_cell_spikes cfg tts
                        [mfAP c; exportAPGR (getInputNet core');
                         exportAPGO (getInputNet core'); exportAPBC zone0;
                         exportAPSC (getInputNet core'); exportAPPC zone0;
                         exportAPIO zone0; exportAPNC zone0] (spike_sums c))
                     (set_cell_spikes
                        [mfAP c; exportAPGR (getInputNet core');
                         exportAPGO (getInputNet core'); exportAPBC zone0;
                         exportAPSC (getInputNet core'); exportAPPC zone0;
                         exportAPIO zone0; exportAPNC zone0]
                        (set_simCore (Some core) c)))) as [_ ->].
      by rewrite (proj2 (calculate_firing_rates_fields _)).
    + intros z [= <-]. by eexists.
  - by split_and!.
Qed.

Lemma reset_spike_sums_lookup c i :
  spike_sums (reset_spike_sums c) !! i
  = if decide (i < NUM_CELL_TYPES)%nat
    then reset_cell <$> spike_sums c !! i else spike_sums c !! i.
Proof.
  unfold reset_spike_sums. rewrite spike_sums_set_spike_sums.
  apply (for_loop_update_lookup (fun _ => reset_cell)).
Qed.

Lemma reset_spike_sums_length c :
  length (spike_sums (reset_spike_sums c)) = length (spike_sums c).
Proof.
  unfold reset_spike_sums. rewrite spike_sums_set_spike_sums.
  apply (for_loop_update_length (fun _ => reset_cell)).
Qed.

Lemma tracked_cells n c :
  population_sizes_fit cfg -> tracked cfg n c ->
  length (spike_sums c) = NUM_CELL_TYPES
  /\ Forall (cell_tracked n) (spike_sums c).
Proof.
  intros Hfit Ht. induction Ht as [c|n tts c c' Ht IH Hu Hf|n c Ht IH|n c c' Ht IH He].
  - unfold initialize_spike_sums. simpl. split; [done|].
    unfold population_sizes_fit in Hfit. rewrite !Forall_cons in Hfit.
    destruct_and!. repeat constructor; by apply cell_tracked_zeroed.
  - destruct IH as [Hlen Hall]. unfold update_spike_sums in Hu.
    destruct (export_cell_spikes c) as [spikes|]; [|done].
    simpl in Hu. injection Hu as <-. simpl in *.
    unfold add_cell_spikes.
    destruct ((csStart cfg <=? tts) && (tts <? csStart cfg + csLength cfg));
      [|destruct (tts <? csStart cfg)].
    + rewrite for_each_cell_type_length. split; [done|].
      apply Forall_lookup. intros i x E.
      rewrite for_each_cell_type_lookup in E.
      destruct (decide (i < NUM_CELL_TYPES)%nat) as [_|Hi].
      * destruct (spike_sums c !! i) as [ss|] eqn:Ess; [|done].
        injection E as <-. apply cell_tracked_add_cs.
        -- destruct (spikes !! i) as [sp|] eqn:Esp; simpl.
           ++ apply (proj1 (Forall_lookup _ _) Hf _ _ Esp).
           ++ apply Forall_nil_2.
        -- apply (proj1 (Forall_lookup _ _) Hall _ _ Ess).
      * apply lookup_lt_Some in E. lia.
    + rewrite for_each_cell_type_length. split; [done|].
      apply Forall_lookup. intros i x E.
      rewrite for_each_cell_type_lookup in E.
      destruct (decide (i < NUM_CELL_TYPES)%nat) as [_|Hi].
      * destruct (spike_sums c !! i) as [ss|] eqn:Ess; [|done].
        injection E as <-. apply cell_tracked_add_non_cs.
        -- destruct (spikes !! i) as [sp|] eqn:Esp; simpl.
           ++ apply (proj1 (Forall_lookup _ _) Hf _ _ Esp).
           ++ apply Forall_nil_2.
        -- apply (proj1 (Forall_lookup _ _) Hall _ _ Ess).
      * apply lookup_lt_Some in E. lia.
    + split; [done|]. eapply Forall_impl; [exact Hall|].
      intros ss. apply cell_tracked_idle.
  - destruct IH as [Hlen Hall]. rewrite reset_spike_sums_length.
    split; [done|]. apply Forall_lookup. intros i x E.
    rewrite reset_spike_sums_lookup in E.
    destruct (decide (i < NUM_CELL_TYPES)%nat) as [_|Hi].
    + destruct (spike_sums c !! i) as [ss|] eqn:Ess; [|done].
      injection E as <-. eapply cell_tracked_reset.
      apply (proj1 (Forall_lookup _ _) Hall _ _ Ess).
    + apply lookup_lt_Some in E. lia.
  - by rewrite He.
Qed.

(** C4.  Conservation of the spike sums: after [initialize_spike_sums]
    and after any sequence of updates (on 0/1 flags) and resets, with
    fewer than 2^32 updates since the sums were last zeroed, the sums of
    every cell type are those of its per-cell counters, for the CS and
    for the rest. *)
Theorem spike_sums_conservation (n : nat) (c : Control) :
  population_sizes_fit cfg ->
  tracked cfg n c ->
  Z.of_nat n < uint32_modulus ->
  forall t : cell_type, exists ss,
    spike_sums c !! cell_index t = Some ss
    /\ cs_spike_sum ss = Zsum (cs_spike_counter ss)
    /\ non_cs_spike_sum ss = Zsum (non_cs_spike_counter ss).
Proof.
  intros Hfit Ht Hn t.
  destruct (tracked_cells n c Hfit Ht) as [Hlen Hall].
  pose proof (cell_index_lt t) as Hlt.
  destruct (lookup_lt_is_Some_2 (spike_sums c) (cell_index t)) as [ss Hss];
    [lia|].
  exists ss. split; [done|].
  destruct (proj1 (Forall_lookup _ _) Hall _ _ Hss) as (_ & _ & _ & Hc).
  by destruct (Hc Hn) as (_ & _ & Hcons).
Qed.





(** ** Set-up and saving *)


(** ** The trial loop *)

(** What a spike-sum update leaves alone. *)
Lemma update_spike_sums_frame tts c c' :
  update_spike_sums cfg tts c = Some c' ->
  trial c' = trial c /\ sim_vis_mode c' = sim_vis_mode c
  /\ flags_of c' = flags_of c
  /\ simCore c' = simCore c /\ mfFreq c' = mfFreq c /\ mfs c' = mfs c.
Proof.
  unfold update_spike_sums. intros Hu.
  destruct (export_cell_spikes c) as [spikes|]; [|done].
  by injection Hu as <-.
Qed.

Lemma set_flags_frame f c :
  trial (set_flags f c) = trial c
  /\ sim_vis_mode (set_flags f c) = sim_vis_mode c
  /\ simCore (set_flags f c) = simCore c
  /\ mfFreq (set_flags f c) = mfFreq c /\ mfs (set_flags f c) = mfs c
  /\ flags_of (set_flags f c) = f.
Proof. by destruct f. Qed.

(** One timestep makes one kernel call, with the weights it was given,
    and stays in its trial. *)
Lemma timestep_spec MFGO GOGR GRGO g tts s s' :
  timestep cfg MFGO GOGR GRGO g tts s = Some s' ->
  run_steps s'
  = run_steps s ++ [KernelStep (trial (run_control s)) tts MFGO GOGR GRGO]
  /\ trial (run_control s') = trial (run_control s)
  /\ sim_vis_mode (run_control s') = sim_vis_mode (run_control s)
  /\ engine_ready (run_control s').
Proof.
  unfold timestep. intros Ht.
  destruct (simCore (run_control s)) as [core|]; [|done].
  destruct (mfFreq (run_control s)) as [freq|] eqn:Efreq; [|done].
  destruct (mfs (run_control s)) as [cells|]; [|done].
  simpl in Ht.
  match type of Ht with
  | context [let '(_, _) := ?e in _] => destruct e as [ap cells1]
  end.
  destruct (calcTrueMFs (getMFBG freq) cells1) as [isTrueMF cells2].
  match type of Ht with
  | (?m ≫= _) = _ => destruct m as [c1|] eqn:Ec1; [|done]
  end.
  simpl in Ht.
  assert (trial c1 = trial (run_control s)
          /\ sim_vis_mode c1 = sim_vis_mode (run_control s)
          /\ engine_ready c1) as (Htr & Hvis & Hready).
  { unfold engine_ready. destruct g.
    - apply update_spike_sums_frame in Ec1
        as (-> & -> & _ & -> & -> & ->). simpl. rewrite Efreq.
      split_and!; by eauto.
    - injection Ec1 as <-. simpl. rewrite Efreq. split_and!; by eauto. }
  match type of Ht with
  | context [let '(_, _) := ?e in _] => destruct e as [w flags]
  end.
  injection Ht as <-. simpl. by split_and!.
Qed.


Lemma seqZ_S m k : seqZ m (Z.of_nat (S k)) = m :: seqZ (m + 1) (Z.of_nat k).
Proof.
  rewrite seqZ_cons by lia. f_equal. f_equal; lia.
Qed.

Lemma run_timesteps_spec MFGO GOGR GRGO g k : forall tts s s',
  run_timesteps cfg MFGO GOGR GRGO g k tts s = Some s' ->
  run_steps s'
  = run_steps s
    ++ ((fun j => KernelStep (trial (run_control s)) j MFGO GOGR GRGO)
          <$> seqZ tts (Z.of_nat k))
  /\ trial (run_control s') = trial (run_control s)
  /\ sim_vis_mode (run_control s') = sim_vis_mode (run_control s).
Proof.
  induction k as [|k IH]; intros tts s s' Hr.
  - injection Hr as <-. simpl. by rewrite app_nil_r.
  - simpl in Hr.
    destruct (timestep cfg MFGO GOGR GRGO g tts s) as [s1|] eqn:E; [|done].
    simpl in Hr. apply timestep_spec in E as (Hs1 & Ht1 & Hv1 & _).
    apply IH in Hr as (-> & -> & ->).
    rewrite Hs1, Ht1, seqZ_S, <- app_assoc. by split_and!.
Qed.


Lemma calculate_firing_rates_frame c :
  trial (calculate_firing_rates cfg c) = trial c
  /\ sim_vis_mode (calculate_firing_rates cfg c) = sim_vis_mode c.
Proof.
  unfold calculate_firing_rates. by destruct (for_loop _ _ _).
Qed.

Lemma seqZ_to_nat m n : seqZ m (Z.of_nat (Z.to_nat n)) = seqZ m n.
Proof. unfold seqZ. by rewrite Nat2Z.id. Qed.

(** One pass of the trial loop: either no kernel call (a tuning trial)
    or the calls of one whole trial; and when the pass ends, the trial
    counter has moved by one. *)
Lemma run_trial_spec fuel MFGO GOGR GRGO g s s' :
  outcome_state (run_trial cfg fuel MFGO GOGR GRGO g s) = Some s' ->
  (run_steps s' = run_steps s
   \/ run_steps s'
      = run_steps s
        ++ trial_kernel_steps cfg MFGO GOGR GRGO (trial (run_control s)))
  /\ sim_vis_mode (run_control s') = sim_vis_mode (run_control s)
  /\ (forall s1, run_trial cfg fuel MFGO GOGR GRGO g s = Finished s1 ->
        trial (run_control s1) = trial (run_control s) + 1)
  /\ (forall s1, run_trial cfg fuel MFGO GOGR GRGO g s <> OutOfFuel s1).
Proof.
  unfold run_trial.
  destruct (if homeoTuningTrials cfg <=? trial (run_control s) then _ else _)
    as [s0|] eqn:E0; [|done].
  assert ((run_steps s0 = run_steps s
           \/ run_steps s0
              = run_steps s
                ++ trial_kernel_steps cfg MFGO GOGR GRGO
                     (trial (run_control s)))
          /\ trial (run_control s0) = trial (run_control s)
          /\ sim_vis_mode (run_control s0) = sim_vis_mode (run_control s))
    as (Hsteps & Htrial & Hvis).
  { destruct (homeoTuningTrials cfg <=? trial (run_control s)).
    - apply run_timesteps_spec in E0 as (-> & -> & ->).
      rewrite seqZ_to_nat. split_and!; try done. by right.
    - injection E0 as <-. split_and!; try done. by left. }
  destruct (calculate_firing_rates_frame (run_control s0)) as [Hct Hcv].
  destruct g as [gh|].
  - destruct (if sim_is_paused (calculate_firing_rates cfg (run_control s0))
              then _ else _) as [[w f] resumed].
    destruct resumed; simpl.
    + intros [= <-]. simpl. destruct f. simpl. rewrite Hct, Hcv.
      split_and!; try done. intros s1 [= <-]. simpl. lia.
    + intros [= <-]. simpl. destruct f. simpl. rewrite Hcv.
      by split_and!.
  - simpl. intros [= <-]. simpl. split_and!; try done.
    intros s1 [= <-]. simpl. lia.
Qed.

(** The kernel calls of a run of the loop are those of whole trials. *)
Lemma while_trials_spec fuel total MFGO GOGR GRGO g n : forall s s',
  outcome_state (while_trials cfg n fuel total MFGO GOGR GRGO g s) = Some s' ->
  exists ts,
    run_steps s'
    = run_steps s ++ concat (trial_kernel_steps cfg MFGO GOGR GRGO <$> ts).
Proof.
  induction n as [|n IH]; intros s s'; simpl;
    destruct ((trial (run_control s) <? total) && in_run (run_control s)).
  - intros [= <-]. exists []. simpl. by rewrite app_nil_r.
  - intros [= <-]. exists []. simpl. by rewrite app_nil_r.
  - destruct (run_trial cfg fuel MFGO GOGR GRGO g s) as [s1|s1|s1|] eqn:E.
    + intros Hw. apply IH in Hw as [ts Hts].
      destruct (run_trial_spec fuel MFGO GOGR GRGO g s s1) as ([Hs|Hs] & _);
        [by rewrite E| |].
      * exists ts. by rewrite Hts, Hs.
      * exists (trial (run_control s) :: ts).
        rewrite Hts, Hs. simpl. by rewrite <- app_assoc.
    + intros [= <-].
      destruct (run_trial_spec fuel MFGO GOGR GRGO g s s1) as ([Hs|Hs] & _);
        [by rewrite E| |].
      * exists []. simpl. by rewrite Hs, app_nil_r.
      * exists [trial (run_control s)]. simpl. by rewrite Hs, app_nil_r.
    + destruct (run_trial_spec fuel MFGO GOGR GRGO g s s1) as (_ & _ & _ & Hno);
        [by rewrite E|]. by destruct (Hno s1).
    + done.
  - intros [= <-]. exists []. simpl. by rewrite app_nil_r.
Qed.







(** The kernel calls of [runTrials] are those of its loop, started with
    the three constants as weights. *)
Lemma runTrials_steps fuel simNum GOGR GRGO MFGO g c w s' :
  outcome_state (runTrials cfg fuel simNum GOGR GRGO MFGO g c w) = Some s' ->
  exists ts,
    run_steps s'
    = concat (trial_kernel_steps cfg float_0_00350_x_0_9 float_0_017
                float_0_0007_x_0_9 <$> ts).
Proof.
  unfold runTrials.
  destruct (while_trials _ _ _ _ _ _ _ _ _) as [s0|s0|s0|] eqn:E; simpl;
    try done; intros [= <-];
    (destruct (while_trials_spec _ _ _ _ _ _ _ _ s0 ltac:(by rewrite E))
       as [ts Hts]; exists ts; by rewrite Hts).
Qed.


(** C9.  The weight arguments of [runTrials] have no effect: any two
    triples of values give the same run, and every kernel call of the
    run is made with the constants 0.00350 * 0.9 (MFGO), 0.017 (GOGR)
    and 0.0007 * 0.9 (GRGO). *)
Theorem runTrials_ignores_its_weights
    (fuel : nat) (simNum : Z) (g : option gui) (c : Control) (w : World)
    (GOGR GRGO MFGO GOGR' GRGO' MFGO' : float) :
  runTrials cfg fuel simNum GOGR GRGO MFGO g c w
  = runTrials cfg fuel simNum GOGR' GRGO' MFGO' g c w
  /\ forall s' e,
       outcome_state (runTrials cfg fuel simNum GOGR GRGO MFGO g c w)
       = Some s' ->
       e ∈ run_steps s' ->
       step_MFGO e = float_0_00350_x_0_9
       /\ step_GOGR e = float_0_017
       /\ step_GRGO e = float_0_0007_x_0_9.
Proof.
  split; [done|]. intros s' e Hs' He.
  apply runTrials_steps in Hs' as [ts Hts]. rewrite Hts in He. clear Hts.
  induction ts as [|t ts IH]; simpl in He; [by apply elem_of_nil in He|].
  apply elem_of_app in He as [He|He]; [|by apply IH].
  unfold trial_kernel_steps in He.
  by apply list_elem_of_fmap in He as (k & -> & _).
Qed.

End Control_facts.

(** ** Examples *)

Section Examples.
Existing Instance raw_components.
Existing Instance lcg_rand.
Existing Instance rational_floats.
Existing Instance still_kernel.
Existing Instance steady_stimulus.
Existing Instance scripted_front_end.
Existing Instance raw_setup.

Lemma raw_round_trip : ComponentsRoundTrip raw_plasticity.
Proof. by constructor. Qed.

Lemma raw_never_throws : ComponentsNeverThrow.
Proof. constructor; intros; by eexists. Qed.

(** A generated state of two zones, written and read back. *)
Lemma serialize_restore_round_trip_witness :
  let s := CBMState_new 7 2 in
  writeState s [] = [] ++ concat (fields_in_order s)
  /\ CBMState_file 2 raw_plasticity (open_stream (writeState s [] ++ [x2a]))
     = Ok (s, open_stream [x2a])
  /\ readState (MkCBMState (C:=raw_components) 2 x00 x00 [x00; x00] [x00; x00])
       (open_stream (writeState s [] ++ [x2a]))
     = Ok (s, open_stream [x2a]).
Proof.
  apply (serialize_restore_round_trip raw_plasticity raw_round_trip 2 7 [] [x2a]
           (MkCBMState (C:=raw_components) 2 x00 x00 [x00; x00] [x00; x00])).
  - lia.
  - reflexivity.
  - split; reflexivity.
Defined.

(** C2, as stated, fails: a stream of no bytes, for one zone, is
    exhausted before the first field, and the constructor returns a
    state; nothing is raised, and only the fail bit of the stream tells. *)
Lemma restore_of_exhausted_stream_returns :
  CBMState_file 1 raw_plasticity (open_stream [])
  = Ok (MkCBMState (C:=raw_components) 1 x00 x00 [x00] [x00], Fstream [] true)
  /\ ~ (exists e, CBMState_file 1 raw_plasticity (open_stream []) = Raise e).
Proof. split; [reflexivity|]. intros [e He]. discriminate He. Qed.

Lemma restore_returns_witness :
  (exists s f', CBMState_file 1 raw_plasticity (Fstream [x01; x02] false) = Ok (s, f')
                /\ numZones s = 1%nat /\ zones_allocated s)
  /\ (exists s f',
        readState (MkCBMState (C:=raw_components) 1 x00 x00 [x00] [x00]) (Fstream [x01; x02] false)
        = Ok (s, f')
        /\ numZones s = 1%nat
        /\ length (mzoneConStates s) = 1%nat
        /\ length (mzoneActStates s) = 1%nat).
Proof.
  exact (restore_returns_unless_a_record_throws raw_never_throws 1 raw_plasticity
           (Fstream [x01; x02] false) (MkCBMState (C:=raw_components) 1 x00 x00 [x00] [x00])).
Defined.

(** C7, as stated, fails: two generative constructions of one zone, at
    clock readings 0 and 1, give different states. *)
Lemma generative_construction_depends_on_the_clock :
  CBMState_new 0 1 <> CBMState_new 1 1.
Proof. vm_compute. discriminate. Qed.



Lemma small_config_sizes_fit : population_sizes_fit small_config.
Proof. repeat constructor. Qed.

Lemma after_cs_update_tracked : tracked small_config 1 after_cs_update.
Proof.
  apply (tracked_update small_config 0 2 ready_control after_cs_update).
  - apply tracked_init.
  - reflexivity.
  - unfold spike_flags.
    repeat (first [apply Forall_nil_2 | apply Forall_cons; split]); auto.
Qed.

Lemma spike_sums_conservation_witness :
  exists ss,
    spike_sums after_cs_update !! cell_index GR = Some ss
    /\ cs_spike_sum ss = Zsum (cs_spike_counter ss)
    /\ non_cs_spike_sum ss = Zsum (non_cs_spike_counter ss).
Proof.
  apply (spike_sums_conservation small_config 1 after_cs_update).
  - exact small_config_sizes_fit.
  - exact after_cs_update_tracked.
  - reflexivity.
Defined.




Lemma runTrials_ignores_its_weights_witness :
  runTrials small_config 5 0 1%Q 2%Q 3%Q None ready_control []
  = runTrials small_config 5 0 4%Q 5%Q 6%Q None ready_control []
  /\ exists s',
       runTrials small_config 5 0 1%Q 2%Q 3%Q None ready_control []
       = Finished s'
       /\ length (run_steps s') = 12%nat
       /\ Forall (fun e => step_MFGO e = ((350 # 100000) * (9 # 10))%Q
                           /\ step_GOGR e = (17 # 1000)%Q
                           /\ step_GRGO e = ((7 # 10000) * (9 # 10))%Q)
            (run_steps s').
Proof.
  destruct (runTrials_ignores_its_weights (FE:=scripted_front_end)
              small_config 5 0 None ready_control
              [] 1%Q 2%Q 3%Q 4%Q 5%Q 6%Q) as [Hsame Hsteps].
  split; [exact Hsame|]. eexists.
  split; [vm_compute; reflexivity|].
  split; [vm_compute; reflexivity|].
  apply Forall_forall. intros e He.
  eapply Hsteps; [vm_compute; reflexivity|exact He].
Defined.

(** A kernel of three zones and one of a single zone, alike in their
    input network and zone 0: the same statistics. *)
Lemma spike_sums_read_zone_0_only_witness :
  spike_sums <$>
    update_spike_sums small_config 2
      (set_simCore (Some three_zone_core) ready_control)
  = spike_sums <$>
      update_spike_sums small_config 2
        (set_simCore (Some ([1; 1], [[1; 1]])) ready_control).
Proof.
  apply (spike_sums_read_zone_0_only small_config 2 ready_control
           three_zone_core ([1; 1], [[1; 1]])); reflexivity.
Defined.

End Examples.

(** * Further properties *)

(** ** The state container, for every state *)

Section CBMState_more.
Context `{C : Components}.

Lemma write_zones_app k : forall i zcons zacts out,
  write_zones k i zcons zacts out = out ++ write_zones k i zcons zacts [].
Proof.
  induction k as [|k IH]; intros i zc za out; simpl; [by rewrite app_nil_r|].
  destruct (zc !! i) as [con|]; [destruct (za !! i) as [act|]|]; try apply IH.
  rewrite IH, (IH _ _ _ (_ ++ _)). by rewrite <- !app_assoc.
Qed.

(** X1.  [writeState] only appends: whatever the stream holds already
    is kept in front, and the bytes added are those written to an empty
    stream; for every state, also one whose zone arrays are short. *)
Theorem writeState_appends (s : CBMState) (out : list byte) :
  writeState s out = out ++ writeState s [].
Proof.
  unfold writeState. simpl. rewrite write_zones_app. symmetry.
  rewrite write_zones_app. by rewrite <- !app_assoc.
Qed.

Lemma new_zones_file_length nZones plast : forall f zcons zacts f',
  new_zones_file nZones plast f = Ok (zcons, zacts, f') ->
  length zcons = nZones /\ length zacts = nZones.
Proof.
  induction nZones as [|n IH]; intros f zc za f'; simpl.
  - by intros [= <- <- _].
  - destruct (MZoneConnectivityState_file f) as [[con f1]|]; [|done]. simpl.
    destruct (MZoneActivityState_file plast f1) as [[act f2]|]; [|done]. simpl.
    destruct (new_zones_file n plast f2) as [[[zc' za'] f3]|] eqn:E; [|done].
    simpl. intros [= <- <- _]. destruct (IH _ _ _ _ E). simpl. lia.
Qed.

Lemma read_zones_length k : forall i zcons zacts f zcons' zacts' f',
  read_zones k i zcons zacts f = Ok (zcons', zacts', f') ->
  length zcons' = length zcons /\ length zacts' = length zacts.
Proof.
  induction k as [|k IH]; intros i zc za f zc' za' f'; simpl.
  - by intros [= <- <- _].
  - destruct (zc !! i) as [con|]; [destruct (za !! i) as [act|]|]; try apply IH.
    destruct (mzoneCon_readState con f) as [[con' f1]|]; [|done]. simpl.
    destruct (mzoneAct_readState act f1) as [[act' f2]|]; [|done]. simpl.
    intros Hr. apply IH in Hr as [Hc Ha].
    rewrite length_insert in Hc. rewrite length_insert in Ha. done.
Qed.

Lemma CBMState_file_allocated nZones plast f s f' :
  CBMState_file nZones plast f = Ok (s, f') ->
  getNumZones s = nZones /\ zones_allocated s.
Proof.
  unfold CBMState_file.
  destruct (InNetConnectivityState_file f) as [[con f1]|]; [|done]. simpl.
  destruct (InNetActivityState_file f1) as [[act f2]|]; [|done]. simpl.
  destruct (new_zones_file nZones plast f2) as [[[zc za] f3]|] eqn:E; [|done].
  simpl. intros [= <- _]. apply new_zones_file_length in E.
  by unfold zones_allocated.
Qed.

(** X2.  Every state that the constructor from a stream returns has the
    zone count it was asked for and both zone arrays of that length;
    [readState] keeps the zone count and the lengths; and on such a state
    the two zone accessors are defined exactly below [getNumZones]. *)
Theorem states_have_their_zones
    (nZones : nat) (plast : plasticity) (f f' : fstream) (s old : CBMState) :
  (CBMState_file nZones plast f = Ok (s, f') ->
     getNumZones s = nZones /\ zones_allocated s)
  /\ (readState old f = Ok (s, f') -> zones_allocated old ->
        getNumZones s = getNumZones old /\ zones_allocated s)
  /\ (zones_allocated s -> forall zoneN,
        (is_Some (getMZoneConStateInternal s zoneN)
         <-> (zoneN < getNumZones s)%nat)
        /\ (is_Some (getMZoneActStateInternal s zoneN)
            <-> (zoneN < getNumZones s)%nat)).
Proof.
  split_and!.
  - apply CBMState_file_allocated.
  - unfold readState. intros Hr [Hc Ha].
    destruct (innetCon_readState _ f) as [[con f1]|]; [|done]. simpl in Hr.
    destruct (innetAct_readState _ f1) as [[act f2]|]; [|done]. simpl in Hr.
    destruct (read_zones _ _ _ _ f2) as [[[zc za] f3]|] eqn:E; [|done].
    simpl in Hr. injection Hr as <- _.
    apply read_zones_length in E as [Hc' Ha'].
    unfold zones_allocated, getNumZones. simpl. split; [done|]. lia.
  - intros [Hc Ha] zoneN.
    unfold getMZoneConStateInternal, getMZoneActStateInternal, getNumZones.
    rewrite !lookup_lt_is_Some, Hc, Ha. done.
Qed.

(** X3.  A state read from a stream can be written and read again: the
    second reading gives the very same state and leaves what follows it
    on the stream; provided each sub-state record reads back what it
    wrote. *)
Theorem restored_state_round_trip
    (plast : plasticity) (RT : ComponentsRoundTrip plast)
    (nZones : nat) (f f' : fstream) (s : CBMState) (rest : list byte) :
  CBMState_file nZones plast f = Ok (s, f') ->
  CBMState_file nZones plast (open_stream (writeState s [] ++ rest))
  = Ok (s, open_stream rest).
Proof.
  intros Hf. apply CBMState_file_allocated in Hf as [<- Hall].
  by apply (CBMState_file_write plast).
Qed.

Lemma zone_bytes_app zc1 zc2 za1 za2 :
  length za1 = length zc1 ->
  zone_bytes (zc1 ++ zc2) (za1 ++ za2)
  = zone_bytes zc1 za1 ++ zone_bytes zc2 za2.
Proof.
  revert za1. induction zc1 as [|con zc1 IH]; intros [|act za1] Hl; try done.
  simpl in Hl. rewrite <- !app_comm_cons, !zone_bytes_cons, IH by lia.
  by rewrite <- !app_assoc.
Qed.

(** X4.  The file is positional and the zone count is not checked:
    reading the bytes of a state of Z zones with a smaller zone count n
    succeeds, gives the input network and the first n zones, and leaves
    the bytes of the other zones unread on the stream. *)
Theorem restore_with_fewer_zones
    (plast : plasticity) (RT : ComponentsRoundTrip plast)
    (s : CBMState) (nZones : nat) (rest : list byte) :
  zones_allocated s -> (nZones <= numZones s)%nat ->
  CBMState_file nZones plast (open_stream (writeState s [] ++ rest))
  = Ok (MkCBMState nZones (innetConState s) (innetActState s)
          (take nZones (mzoneConStates s)) (take nZones (mzoneActStates s)),
        open_stream
          (zone_bytes (drop nZones (mzoneConStates s))
             (drop nZones (mzoneActStates s)) ++ rest)).
Proof.
  intros Hs Hn. rewrite writeState_spec by done. destruct Hs as [Hc Ha].
  unfold CBMState_file, fields_in_order. simpl.
  rewrite <- !app_assoc, innetCon_file_write. simpl.
  rewrite innetAct_file_write. simpl.
  fold (zone_bytes (mzoneConStates s) (mzoneActStates s)).
  rewrite <- (take_drop nZones (mzoneConStates s)) at 1.
  rewrite <- (take_drop nZones (mzoneActStates s)) at 1.
  rewrite zone_bytes_app by (rewrite !length_take; lia).
  rewrite <- app_assoc.
  pose proof (new_zones_file_write plast (take nZones (mzoneConStates s))
                (take nZones (mzoneActStates s))
                (zone_bytes (drop nZones (mzoneConStates s))
                   (drop nZones (mzoneActStates s)) ++ rest)) as Hr.
  replace (length (take nZones (mzoneConStates s))) with nZones in Hr
    by (rewrite length_take; lia).
  rewrite Hr by (rewrite length_take; lia). done.
Qed.

End CBMState_more.

(** ** Set-up and saving, further *)

Section Saving_more.
Context `{C : Components} `{R : RandGen} `{SG : Stimulus} `{FE : FrontEnd}.
Context `{SIO : !SetupIO}.
Variable cfg : config.




(** X7.  [init_sim_state] changes no member of the controller but
    [simState], and that one only when it was null: a state that is
    there is never replaced, and the call then leaves a message; the
    diagnostic output only grows; and the call fails only if the
    constructor of the state throws, on a controller whose parameters are
    populated and whose state is null. *)
Theorem init_sim_state_changes_the_state_only
    (c : Control) (fs : gmap string (list byte)) (err : list string)
    (stateFile : string) :
  match init_sim_state cfg stateFile c fs err with
  | Ok (c', err') =>
      c' = set_simState (simState c') c
      /\ (exists msgs, err' = err ++ msgs)
      /\ (is_Some (simState c) -> c' = c /\ err' <> err)
      /\ (simState c = None -> con_params_populated c = true ->
          act_params_populated c = true ->
          err' = err
          /\ exists st, CBMState_path (numMZones cfg) stateFile fs = Ok st
                        /\ simState c' = Some st)
  | Raise e =>
      CBMState_path (numMZones cfg) stateFile fs = Raise e
      /\ simState c = None
      /\ con_params_populated c = true /\ act_params_populated c = true
  end.
Proof.
  assert (forall l (m : list string), m <> [] -> l ++ m <> l) as Hne.
  { intros l m Hm Heq. apply Hm. apply (app_inv_head l).
    by rewrite app_nil_r. }
  unfold init_sim_state.
  destruct (con_params_populated c) eqn:Hc; simpl.
  - destruct (act_params_populated c) eqn:Ha; simpl.
    + destruct (simState c) as [st|] eqn:Hs.
      * split_and!; [destruct c; simpl in *; by subst|by eexists| |done].
        intros _. split; [done|]. by apply Hne.
      * destruct (CBMState_path _ _ _) as [st|e] eqn:Hp; simpl; [|done].
        split_and!; [by destruct c|exists []; by rewrite app_nil_r| |].
        -- by intros [? [=]].
        -- intros _ _ _. split; [done|]. by exists st.
    + split_and!; [by destruct c|by eexists| |done].
      intros _. split; [done|]. by apply Hne.
  - split_and!; [by destruct c|by eexists| |done].
    intros _. split; [done|]. by apply Hne.
Qed.

End Saving_more.

(** ** File names *)

Lemma find_last_of_None chars s :
  find_last_of chars s = None <-> Forall (fun c => c ∉ chars) s.
Proof.
  induction s as [|c s IH]; simpl; [by split|].
  destruct (find_last_of chars s) as [i|].
  - split; [done|]. intros Hf. apply Forall_cons in Hf as [_ Hf].
    by apply IH in Hf.
  - case_bool_decide as Hc.
    + split; [done|]. intros Hf. by apply Forall_cons in Hf as [? _].
    + split; [|done]. intros _. apply Forall_cons. split; [done|]. by apply IH.
Qed.

Lemma find_last_of_app chars pre c post :
  c ∈ chars -> Forall (fun c => c ∉ chars) post ->
  find_last_of chars (pre ++ c :: post) = Some (length pre).
Proof.
  intros Hc Hpost. apply find_last_of_None in Hpost.
  induction pre as [|x pre IH]; simpl.
  - rewrite Hpost. by rewrite bool_decide_true.
  - by rewrite IH.
Qed.

Lemma find_last_of_Some chars s i :
  find_last_of chars s = Some i ->
  exists pre c post,
    s = pre ++ c :: post /\ length pre = i /\ c ∈ chars
    /\ Forall (fun c => c ∉ chars) post.
Proof.
  revert i. induction s as [|x s IH]; intros i; simpl; [done|].
  destruct (find_last_of chars s) as [j|] eqn:E.
  - intros [= <-].
    destruct (IH j eq_refl) as (pre & c & post & -> & <- & Hc & Hp).
    by exists (x :: pre), c, post.
  - case_bool_decide as Hc; [|done]. intros [= <-].
    exists [], x, s. split_and!; try done. by apply find_last_of_None.
Qed.

Lemma Forall_not_dot (l : list ascii) :
  Forall (fun c => c <> "."%char) l <-> Forall (fun c => c ∉ ["."%char]) l.
Proof.
  split; intros Hl; (eapply Forall_impl; [exact Hl|]); intros c Hc;
    simpl in *; intros Hd; apply Hc; by apply list_elem_of_singleton.
Qed.

Lemma dot_is_no_separator : "."%char ∉ path_separators.
Proof.
  unfold path_separators. rewrite !not_elem_of_cons.
  split_and!; [done|done|apply not_elem_of_nil].
Qed.

(** After its first step, [getFileBasename] works on what follows the
    last separator. *)
Lemma getFileBasename_directory dir sep file :
  sep ∈ path_separators -> Forall (fun c => c ∉ path_separators) file ->
  getFileBasename (dir ++ sep :: file) = getFileBasename file.
Proof.
  intros Hsep Hfile. unfold getFileBasename at 1.
  rewrite (find_last_of_app _ dir sep file Hsep Hfile). cbv zeta.
  assert (substr (length dir + 1)
            (length (dir ++ sep :: file) - length dir - 1)
            (dir ++ sep :: file) = Some file) as ->.
  { unfold substr.
    rewrite decide_True by (rewrite length_app; simpl; lia).
    rewrite (cons_middle sep), app_assoc.
    rewrite drop_app_length' by (rewrite length_app; simpl; lia).
    by rewrite take_ge by (rewrite !length_app; simpl; lia). }
  unfold getFileBasename.
  by rewrite (proj2 (find_last_of_None _ _) Hfile).
Qed.

Lemma getFileBasename_extension stem ext :
  Forall (fun c => c ∉ path_separators) (stem ++ "."%char :: ext) ->
  Forall (fun c => c <> "."%char) ext ->
  getFileBasename (stem ++ "."%char :: ext) = Some stem.
Proof.
  intros Hfile Hext. unfold getFileBasename.
  rewrite (proj2 (find_last_of_None _ _) Hfile). simpl.
  rewrite (find_last_of_app ["."%char] stem "."%char ext).
  - unfold substr. rewrite decide_True by lia. rewrite drop_0.
    by rewrite take_app_length.
  - by apply list_elem_of_singleton.
  - by apply Forall_not_dot.
Qed.

Lemma getFileBasename_plain file :
  Forall (fun c => c ∉ path_separators) file ->
  Forall (fun c => c <> "."%char) file ->
  getFileBasename file = Some file.
Proof.
  intros Hfile Hdot. unfold getFileBasename.
  rewrite (proj2 (find_last_of_None _ _) Hfile). simpl.
  rewrite (proj2 (find_last_of_None ["."%char] file)); [done|].
  by apply Forall_not_dot.
Qed.

(** X8.  [getFileBasename] returns for every path (no [substr] of it is
    out of range); what it returns is a part of the path that holds no
    separator, and what follows it in the path holds none either. *)
Theorem getFileBasename_returns_a_name (fullFilePath : list ascii) :
  exists name pre post,
    getFileBasename fullFilePath = Some name
    /\ fullFilePath = pre ++ name ++ post
    /\ Forall (fun c => c ∉ path_separators) (name ++ post).
Proof.
  assert (forall file, Forall (fun c => c ∉ path_separators) file ->
            exists name post, getFileBasename file = Some name
                              /\ file = name ++ post) as Hfile.
  { intros file Hf.
    destruct (find_last_of ["."%char] file) as [dot|] eqn:E.
    - apply find_last_of_Some in E as (stem & c & ext & -> & _ & Hc & Hext).
      apply list_elem_of_singleton in Hc as ->.
      exists stem, ("."%char :: ext). split; [|done].
      apply getFileBasename_extension; [done|]. by apply Forall_not_dot.
    - exists file, []. rewrite app_nil_r. split; [|done].
      apply getFileBasename_plain; [done|].
      apply Forall_not_dot. by apply find_last_of_None. }
  destruct (find_last_of path_separators fullFilePath) as [sep|] eqn:E.
  - apply find_last_of_Some in E as (dir & c & file & -> & _ & Hc & Hf).
    destruct (Hfile file Hf) as (name & post & Hn & ->).
    exists name, (dir ++ [c]), post.
    rewrite getFileBasename_directory by done.
    split_and!; [done| |done]. by rewrite <- app_assoc.
  - apply find_last_of_None in E.
    destruct (Hfile fullFilePath E) as (name & post & Hn & ->).
    by exists name, [], post.
Qed.

(** X9.  [getFileBasename] drops the directory, up to the last slash or
    backslash, and then the extension, from the last dot on: dots of
    the directory are not looked at, of several extensions only the last
    goes, and a name with no dot is returned whole. *)
Theorem getFileBasename_strips_directory_and_extension
    (dir stem ext : list ascii) (sep : ascii) :
  sep ∈ path_separators ->
  Forall (fun c => c ∉ path_separators) stem ->
  Forall (fun c => c ∉ path_separators) ext ->
  Forall (fun c => c <> "."%char) ext ->
  getFileBasename (dir ++ sep :: stem ++ "."%char :: ext) = Some stem
  /\ getFileBasename (stem ++ "."%char :: ext) = Some stem
  /\ (Forall (fun c => c <> "."%char) stem ->
        getFileBasename (dir ++ sep :: stem) = Some stem
        /\ getFileBasename stem = Some stem).
Proof.
  intros Hsep Hstem Hext Hdot.
  assert (Forall (fun c => c ∉ path_separators) (stem ++ "."%char :: ext))
    as Hfile.
  { apply Forall_app. split; [done|]. apply Forall_cons. split; [|done].
    apply dot_is_no_separator. }
  split_and!.
  - rewrite getFileBasename_directory by done.
    by apply getFileBasename_extension.
  - by apply getFileBasename_extension.
  - intros Hplain. rewrite getFileBasename_directory by done.
    split; by apply getFileBasename_plain.
Qed.

(** ** The sample of granule cells *)

Section Sampling_facts.
Context `{R : RandGen}.

Lemma sample_loop_post (sample_size data_size : Z) (old : list Z) fuel :
  forall randGen chosen counter gr g,
  length chosen = Z.to_nat data_size ->
  0 <= counter <= Z.max 0 sample_size ->
  length gr = length old ->
  (Z.to_nat counter <= length gr)%nat ->
  NoDup (take (Z.to_nat counter) gr) ->
  (forall x, x ∈ take (Z.to_nat counter) gr ->
     0 <= x < data_size /\ chosen !! Z.to_nat x = Some true) ->
  drop (Z.to_nat counter) gr = drop (Z.to_nat counter) old ->
  Sampling.sample_loop fuel sample_size data_size randGen chosen counter gr
  = Sampling.Sampled g ->
  length g = length old
  /\ (Z.to_nat sample_size <= length g)%nat
  /\ NoDup (take (Z.to_nat sample_size) g)
  /\ Forall (fun x => 0 <= x < data_size) (take (Z.to_nat sample_size) g)
  /\ drop (Z.to_nat sample_size) g = drop (Z.to_nat sample_size) old.
Proof.
  induction fuel as [|fuel IH];
    intros randGen chosen counter gr g Hch Hc Hlen Hle Hnd Hin Hdrop; simpl.
  - destruct (counter <? sample_size) eqn:E; [done|]. intros [= <-].
    apply Z.ltb_ge in E.
    assert (Z.to_nat sample_size = Z.to_nat counter) as -> by lia.
    split_and!; try done. apply Forall_forall. intros x Hx. by apply Hin.
  - destruct (counter <? sample_size) eqn:E.
    + apply Z.ltb_lt in E.
      destruct (IRandom 0 (data_size - 1) randGen) as [index randGen'].
      destruct (index <? 0) eqn:E0; [done|]. apply Z.ltb_ge in E0.
      destruct (chosen !! Z.to_nat index) as [[|]|] eqn:Ei; [| |done].
      * by apply IH.
      * destruct (decide (Z.to_nat counter < length gr)%nat) as [Hw|];
          [|done].
        assert (Z.to_nat (counter + 1) = S (Z.to_nat counter)) as Hs by lia.
        assert (take (Z.to_nat (counter + 1))
                  (<[Z.to_nat counter := index]> gr)
                = take (Z.to_nat counter) gr ++ [index]) as Htake.
        { rewrite Hs.
          rewrite (take_S_r _ _ index)
            by (by rewrite list_lookup_insert_eq).
          by rewrite take_insert_ge by lia. }
        pose proof (lookup_lt_Some _ _ _ Ei) as Hilt.
        apply IH.
        -- by rewrite length_insert.
        -- lia.
        -- by rewrite length_insert.
        -- rewrite length_insert. lia.
        -- rewrite Htake. apply NoDup_app.
           split_and!; [done| |apply NoDup_singleton].
           intros x Hx Hx'. apply list_elem_of_singleton in Hx' as ->.
           destruct (Hin index Hx) as [_ Ht]. congruence.
        -- intros x. rewrite Htake, elem_of_app, list_elem_of_singleton.
           intros [Hx | ->].
           ++ destruct (Hin x Hx) as [Hr Ht]. split; [done|].
              destruct (decide (Z.to_nat index = Z.to_nat x)) as [<-|Hne].
              ** by rewrite list_lookup_insert_eq.
              ** by rewrite list_lookup_insert_ne.
           ++ split; [lia|]. by rewrite list_lookup_insert_eq.
        -- rewrite Hs, drop_insert_lt by lia.
           replace (S (Z.to_nat counter)) with (Z.to_nat counter + 1)%nat
             by lia.
           rewrite <- !drop_drop. by rewrite Hdrop.
    + intros [= <-]. apply Z.ltb_ge in E.
      assert (Z.to_nat sample_size = Z.to_nat counter) as -> by lia.
      split_and!; try done. apply Forall_forall. intros x Hx. by apply Hin.
Qed.

(** X10.  When [gen_gr_sample] returns, the first [sample_size]
    entries of [gr_indices] are pairwise distinct indices, each at least
    0 and below [data_size], and the entries after them are as they
    were. *)
Theorem gen_gr_sample_gives_distinct_indices
    (fuel : nat) (gr_indices g : list Z) (sample_size data_size : Z) :
  Sampling.gen_gr_sample fuel gr_indices sample_size data_size
  = Sampling.Sampled g ->
  length g = length gr_indices
  /\ (Z.to_nat sample_size <= length g)%nat
  /\ NoDup (take (Z.to_nat sample_size) g)
  /\ Forall (fun x => 0 <= x < data_size) (take (Z.to_nat sample_size) g)
  /\ drop (Z.to_nat sample_size) g = drop (Z.to_nat sample_size) gr_indices.
Proof.
  unfold Sampling.gen_gr_sample. apply sample_loop_post; simpl; try done.
  - by rewrite length_replicate.
  - lia.
  - lia.
  - apply NoDup_nil_2.
  - intros x Hx. by apply elem_of_nil in Hx.
Qed.

Lemma sample_loop_safe (sample_size data_size : Z) fuel :
  forall randGen chosen counter gr,
  length chosen = Z.to_nat data_size ->
  0 <= counter ->
  (Z.to_nat sample_size <= length gr)%nat ->
  Forall (fun x => 0 <= x < data_size)
    (Sampling.index_draws fuel data_size randGen) ->
  Sampling.sample_loop fuel sample_size data_size randGen chosen counter gr
  <> Sampling.OutOfBounds.
Proof.
  induction fuel as [|fuel IH]; intros randGen chosen counter gr Hch Hc Hgr Hd;
    simpl in *.
  - by destruct (counter <? sample_size).
  - destruct (counter <? sample_size) eqn:E; [|done]. apply Z.ltb_lt in E.
    destruct (IRandom 0 (data_size - 1) randGen) as [index randGen'].
    apply Forall_cons in Hd as [Hi Hd].
    rewrite (proj2 (Z.ltb_ge index 0)) by lia.
    destruct (lookup_lt_is_Some_2 chosen (Z.to_nat index)) as [b Hb]; [lia|].
    rewrite Hb. destruct b; [by apply IH|].
    rewrite decide_True by lia.
    apply IH; rewrite ?length_insert; try done; lia.
Qed.

Lemma sample_loop_ends (sample_size data_size : Z) fuel :
  forall randGen chosen counter gr (l : list Z),
  NoDup l ->
  (forall x, x ∈ l ->
     x ∈ Sampling.index_draws fuel data_size randGen
     /\ 0 <= x /\ chosen !! Z.to_nat x = Some false) ->
  sample_size - counter <= Z.of_nat (length l) ->
  Sampling.sample_loop fuel sample_size data_size randGen chosen counter gr
  <> Sampling.StillSampling.
Proof.
  induction fuel as [|fuel IH]; intros randGen chosen counter gr l Hnd Hl Hlen;
    simpl in *.
  - destruct (counter <? sample_size) eqn:E; [|done]. apply Z.ltb_lt in E.
    destruct l as [|x l]; [simpl in Hlen; lia|].
    destruct (Hl x) as [Hx _]; [left|]. by apply elem_of_nil in Hx.
  - destruct (counter <? sample_size) eqn:E; [|done]. apply Z.ltb_lt in E.
    destruct (IRandom 0 (data_size - 1) randGen) as [index randGen'].
    destruct (index <? 0) eqn:E0; [done|]. apply Z.ltb_ge in E0.
    destruct (chosen !! Z.to_nat index) as [[|]|] eqn:Ei; [| |done].
    + apply (IH _ _ _ _ l); try done.
      intros x Hx. destruct (Hl x Hx) as (Hd & H0 & Hf).
      split_and!; try done. apply elem_of_cons in Hd as [->|Hd]; [|done].
      congruence.
    + destruct (decide (Z.to_nat counter < length gr)%nat) as [Hw|]; [|done].
      destruct (decide (index ∈ l)) as [Hil|Hil].
      * apply elem_of_Permutation in Hil as [k Hk].
        rewrite Hk in Hnd. apply NoDup_cons in Hnd as [Hik Hnd].
        apply (IH _ _ _ _ k); try done.
        -- intros x Hx.
           destruct (Hl x) as (Hd & H0 & Hf); [rewrite Hk; by right|].
           assert (x <> index) as Hne by (by intros ->).
           split_and!; try done.
           ++ apply elem_of_cons in Hd as [->|Hd]; done.
           ++ rewrite list_lookup_insert_ne by lia. done.
        -- rewrite Hk in Hlen. simpl in Hlen. lia.
      * apply (IH _ _ _ _ l); try done; [|lia].
        intros x Hx. destruct (Hl x Hx) as (Hd & H0 & Hf).
        assert (x <> index) as Hne by (by intros ->).
        split_and!; try done.
        -- apply elem_of_cons in Hd as [->|Hd]; done.
        -- rewrite list_lookup_insert_ne by lia. done.
Qed.

(** X11.  [gen_gr_sample] returns as soon as the generator has shown
    [sample_size] distinct indices: if the first [fuel] draws are all at
    least 0 and below [data_size] and hold that many distinct values, and
    [gr_indices] has room for the sample, the loop is left within [fuel]
    passes. *)
Theorem gen_gr_sample_returns_on_distinct_draws
    (fuel : nat) (gr_indices l : list Z) (sample_size data_size : Z) :
  let draws := Sampling.index_draws fuel data_size (CRandomSFMT_seed 0) in
  Forall (fun x => 0 <= x < data_size) draws ->
  (Z.to_nat sample_size <= length gr_indices)%nat ->
  NoDup l -> l ⊆ draws -> sample_size <= Z.of_nat (length l) ->
  exists g,
    Sampling.gen_gr_sample fuel gr_indices sample_size data_size
    = Sampling.Sampled g.
Proof.
  intros draws Hd Hgr Hnd Hsub Hlen.
  pose proof (sample_loop_safe sample_size data_size fuel (CRandomSFMT_seed 0)
                (replicate (Z.to_nat data_size) false) 0 gr_indices) as Hsafe.
  pose proof (sample_loop_ends sample_size data_size fuel (CRandomSFMT_seed 0)
                (replicate (Z.to_nat data_size) false) 0 gr_indices l) as Hend.
  unfold Sampling.gen_gr_sample.
  destruct (Sampling.sample_loop _ _ _ _ _ _ _) as [g| |].
  - by exists g.
  - exfalso. apply Hend; [done| |lia|done].
    intros x Hx. pose proof (Hsub x Hx) as Hxd.
    pose proof (proj1 (Forall_forall _ _) Hd x Hxd) as Hr. simpl in Hr.
    split_and!; [done|lia|]. apply lookup_replicate. split; [done|]. lia.
  - exfalso. apply Hsafe; try done. by rewrite length_replicate.
Qed.

(** X12.  With fewer cells than the sample asks for, [gen_gr_sample]
    never returns, however many passes its loop is given ([runTrials]
    asks for 4096 of the [num_gr] granule cells); and with a generator
    that stays in range, every pass finds the loop still running. *)
Theorem gen_gr_sample_never_returns_for_few_cells
    (fuel : nat) (gr_indices : list Z) (sample_size data_size : Z) :
  0 < sample_size -> data_size < sample_size ->
  (forall g,
     Sampling.gen_gr_sample fuel gr_indices sample_size data_size
     <> Sampling.Sampled g)
  /\ (Forall (fun x => 0 <= x < data_size)
        (Sampling.index_draws fuel data_size (CRandomSFMT_seed 0)) ->
      (Z.to_nat sample_size <= length gr_indices)%nat ->
      Sampling.gen_gr_sample fuel gr_indices sample_size data_size
      = Sampling.StillSampling).
Proof.
  intros Hs Hds.
  assert (forall g,
            Sampling.gen_gr_sample fuel gr_indices sample_size data_size
     <> Sampling.Sampled g)
    as Hnever.
  { intros g Hg. unfold Sampling.gen_gr_sample in Hg.
    apply (sample_loop_post _ _ gr_indices) in Hg
      as (_ & Hle & Hnd & Hr & _); simpl; try done; try lia;
      [|by rewrite length_replicate|apply NoDup_nil_2
       |intros x Hx; by apply elem_of_nil in Hx].
    assert (take (Z.to_nat sample_size) g ⊆+ seqZ 0 data_size) as Hsub.
    { apply NoDup_submseteq; [done|]. intros x Hx.
      apply elem_of_seqZ. apply (proj1 (Forall_forall _ _) Hr x Hx). }
    apply submseteq_length in Hsub.
    rewrite length_take, length_seqZ in Hsub. lia. }
  split; [done|]. intros Hd Hgr.
  pose proof (sample_loop_safe sample_size data_size fuel (CRandomSFMT_seed 0)
                (replicate (Z.to_nat data_size) false) 0 gr_indices) as Hsafe.
  destruct (Sampling.gen_gr_sample fuel gr_indices sample_size data_size)
    as [g| |] eqn:E.
  - by destruct (Hnever g).
  - done.
  - exfalso. unfold Sampling.gen_gr_sample in E. apply Hsafe; try done.
    by rewrite length_replicate.
Qed.

End Sampling_facts.

(** ** The spike statistics, further *)

Lemma cell_sized_add_cs n spikes ss :
  cell_sized n ss -> cell_sized n (add_cs_spikes spikes ss).
Proof.
  intros (Hn & Hc & Hnc).
  pose proof (add_spikes_length (num_cells ss) spikes
                (cs_spike_sum ss, cs_spike_counter ss)) as Hlen.
  unfold add_cs_spikes. destruct (add_spikes _ _ _) as [sum counter].
  unfold cell_sized. simpl in *. split_and!; congruence.
Qed.

Lemma cell_sized_add_non_cs n spikes ss :
  cell_sized n ss -> cell_sized n (add_non_cs_spikes spikes ss).
Proof.
  intros (Hn & Hc & Hnc).
  pose proof (add_spikes_length (num_cells ss) spikes
                (non_cs_spike_sum ss, non_cs_spike_counter ss)) as Hlen.
  unfold add_non_cs_spikes. destruct (add_spikes _ _ _) as [sum counter].
  unfold cell_sized. simpl in *. split_and!; congruence.
Qed.

Lemma cell_sized_reset n ss :
  cell_sized n ss ->
  reset_cell ss = MkSpikeSums n 0 0 (replicate n 0) (replicate n 0).
Proof.
  intros (Hn & Hc & Hnc). unfold reset_cell.
  rewrite !memset_zero_all by congruence. by rewrite Hn.
Qed.

Lemma sort_counters_length n a : length (sort_counters n a) = length a.
Proof.
  unfold sort_counters.
  rewrite length_app, merge_sort_Permutation, <- length_app.
  by rewrite take_drop.
Qed.

Lemma sort_counters_Permutation n a : sort_counters n a ≡ₚ a.
Proof.
  unfold sort_counters. rewrite merge_sort_Permutation. by rewrite take_drop.
Qed.

Lemma Zsum_Permutation l k : l ≡ₚ k -> Zsum l = Zsum k.
Proof. induction 1; simpl; lia. Qed.

Lemma sort_counters_idemp n a :
  sort_counters n (sort_counters n a) = sort_counters n a.
Proof.
  unfold sort_counters at 1 3.
  assert (take n (sort_counters n a) = merge_sort Z.le (take n a)
          /\ drop n (sort_counters n a) = drop n a) as [-> ->].
  { unfold sort_counters.
    assert (length (merge_sort Z.le (take n a)) = length (take n a)) as Hl
      by (by rewrite merge_sort_Permutation).
    destruct (decide (n <= length a)%nat) as [Hn|Hn].
    - rewrite length_take, Nat.min_l in Hl by done.
      rewrite take_app_length', drop_app_length' by done. done.
    - rewrite (drop_ge a) by lia. rewrite app_nil_r.
      rewrite take_ge, drop_ge by (rewrite Hl, length_take; lia). done. }
  f_equal. apply (Sorted_unique Z.le).
  - apply (Sorted_merge_sort Z.le).
  - apply (Sorted_merge_sort Z.le).
  - by rewrite !merge_sort_Permutation.
Qed.

Lemma cell_rates_idemp t ss :
  cell_rates t (cell_rates t ss).1 = cell_rates t ss.
Proof. unfold cell_rates. simpl. by rewrite !sort_counters_idemp. Qed.

Lemma cell_rates_conserved t ss :
  num_cells (cell_rates t ss).1 = num_cells ss
  /\ cs_spike_counter (cell_rates t ss).1 ≡ₚ cs_spike_counter ss
  /\ non_cs_spike_counter (cell_rates t ss).1 ≡ₚ non_cs_spike_counter ss
  /\ cs_spike_sum (cell_rates t ss).1 = cs_spike_sum ss
  /\ non_cs_spike_sum (cell_rates t ss).1 = non_cs_spike_sum ss
  /\ (sums_conserved ss -> sums_conserved (cell_rates t ss).1).
Proof.
  unfold cell_rates, sums_conserved. simpl.
  split_and!; try done; try apply sort_counters_Permutation.
  intros [-> ->].
  by rewrite !(Zsum_Permutation _ _ (sort_counters_Permutation _ _)).
Qed.

Section Statistics_more.
Context `{C : Components} `{R : RandGen} `{SG : Stimulus} `{FE : FrontEnd}.
Context `{SIO : !SetupIO}.
Variable cfg : config.

Lemma update_spike_sums_sized tts c c' :
  Forall2 cell_sized (population_sizes cfg) (spike_sums c) ->
  update_spike_sums cfg tts c = Some c' ->
  Forall2 cell_sized (population_sizes cfg) (spike_sums c').
Proof.
  intros IH Hu. unfold update_spike_sums in Hu.
  destruct (export_cell_spikes c) as [spikes|]; [|done].
  simpl in Hu. injection Hu as <-. simpl.
  apply Forall2_same_length_lookup in IH as [Hlen IH].
  unfold add_cell_spikes.
  destruct ((csStart cfg <=? tts) && (tts <? csStart cfg + csLength cfg));
    [|destruct (tts <? csStart cfg)].
  - apply Forall2_same_length_lookup.
    rewrite for_each_cell_type_length. split; [done|].
    intros i size ss' Hsize E. rewrite for_each_cell_type_lookup in E.
    destruct (decide (i < NUM_CELL_TYPES)%nat) as [_|Hi]; [|by eapply IH].
    destruct (spike_sums c !! i) as [ss|] eqn:Ess; [|done].
    injection E as <-. apply cell_sized_add_cs. by eapply IH.
  - apply Forall2_same_length_lookup.
    rewrite for_each_cell_type_length. split; [done|].
    intros i size ss' Hsize E. rewrite for_each_cell_type_lookup in E.
    destruct (decide (i < NUM_CELL_TYPES)%nat) as [_|Hi]; [|by eapply IH].
    destruct (spike_sums c !! i) as [ss|] eqn:Ess; [|done].
    injection E as <-. apply cell_sized_add_non_cs. by eapply IH.
  - by apply Forall2_same_length_lookup.
Qed.

Lemma initialize_spike_sums_sized c :
  Forall2 cell_sized (population_sizes cfg)
    (spike_sums (initialize_spike_sums cfg c)).
Proof.
  unfold initialize_spike_sums, population_sizes. simpl.
  repeat constructor; simpl; by rewrite length_replicate.
Qed.

Lemma reset_spike_sums_sized c :
  Forall2 cell_sized (population_sizes cfg) (spike_sums c) ->
  spike_sums (reset_spike_sums c) = spike_sums (initialize_spike_sums cfg c).
Proof.
  intros Hs. apply Forall2_same_length_lookup in Hs as [Hlen Hs].
  apply list_eq. intros i. rewrite reset_spike_sums_lookup.
  unfold initialize_spike_sums. simpl.
  fold (population_sizes cfg).
  change ([MkSpikeSums (num_mf cfg) 0 0 (replicate (num_mf cfg) 0)
             (replicate (num_mf cfg) 0);
           MkSpikeSums (num_gr cfg) 0 0 (replicate (num_gr cfg) 0)
             (replicate (num_gr cfg) 0);
           MkSpikeSums (num_go cfg) 0 0 (replicate (num_go cfg) 0)
             (replicate (num_go cfg) 0);
           MkSpikeSums (num_bc cfg) 0 0 (replicate (num_bc cfg) 0)
             (replicate (num_bc cfg) 0);
           MkSpikeSums (num_sc cfg) 0 0 (replicate (num_sc cfg) 0)
             (replicate (num_sc cfg) 0);
           MkSpikeSums (num_pc cfg) 0 0 (replicate (num_pc cfg) 0)
             (replicate (num_pc cfg) 0);
           MkSpikeSums (num_io cfg) 0 0 (replicate (num_io cfg) 0)
             (replicate (num_io cfg) 0);
           MkSpikeSums (num_nc cfg) 0 0 (replicate (num_nc cfg) 0)
             (replicate (num_nc cfg) 0)])
    with ((fun n => MkSpikeSums n 0 0 (replicate n 0) (replicate n 0))
            <$> population_sizes cfg).
  rewrite list_lookup_fmap.
  assert (length (population_sizes cfg) = NUM_CELL_TYPES) as Hp by done.
  destruct (decide (i < NUM_CELL_TYPES)%nat) as [Hi|Hi].
  - destruct (lookup_lt_is_Some_2 (population_sizes cfg) i) as [size Hsize];
      [lia|].
    destruct (lookup_lt_is_Some_2 (spike_sums c) i) as [ss Hss]; [lia|].
    rewrite Hsize, Hss. simpl. f_equal. apply cell_sized_reset. by eapply Hs.
  - rewrite !lookup_ge_None_2 by lia. done.
Qed.

Lemma calculate_firing_rates_all_lookup c i :
  let non_cs_time := (inject_Z (csStart cfg - 1) / 1000)%Q in
  spike_sums (calculate_firing_rates cfg c) !! i
  = (if decide (i < NUM_CELL_TYPES)%nat
     then (fun ss => (cell_rates non_cs_time ss).1) <$> spike_sums c !! i
     else spike_sums c !! i)
  /\ firing_rates (calculate_firing_rates cfg c) !! i
     = (if decide (i < NUM_CELL_TYPES)%nat
        then match spike_sums c !! i with
             | Some ss =>
                 (fun _ => (cell_rates non_cs_time ss).2)
                   <$> firing_rates c !! i
             | None => firing_rates c !! i
             end
        else firing_rates c !! i).
Proof.
  intros t. destruct (calculate_firing_rates_fields cfg c) as [-> ->]. fold t.
  set (sums0 := spike_sums c). set (rates0 := firing_rates c).
  revert i.
  pose (P := fun (k : nat)
                 (p : list cell_spike_sums * list cell_firing_rates) =>
               forall i,
                 p.1 !! i
                 = (if decide (i < k)%nat
                    then (fun ss => (cell_rates t ss).1) <$> sums0 !! i
                    else sums0 !! i)
                 /\ p.2 !! i
                    = (if decide (i < k)%nat
                       then match sums0 !! i with
                            | Some ss =>
                                (fun _ => (cell_rates t ss).2) <$> rates0 !! i
                            | None => rates0 !! i
                            end
                       else rates0 !! i)).
  apply (for_loop_ind P NUM_CELL_TYPES); unfold P.
  - intros i. by rewrite decide_False by lia.
  - intros k [sums rates] _ IH i. cbn [fst snd] in IH.
    destruct (IH k) as [Hsk Hrk].
    rewrite decide_False in Hsk by lia. rewrite decide_False in Hrk by lia.
    destruct (IH i) as [Hsi Hri].
    destruct (decide (i = k)) as [->|Hne].
    + destruct (decide (k < S k)%nat) as [_|?]; [|lia].
      rewrite Hsk.
      destruct (sums0 !! k) as [ss|] eqn:Ess.
      * destruct (cell_rates t ss) as [ss' fr] eqn:Ecr.
        cbn [fst snd fmap option_fmap option_map]. rewrite ?Ecr.
        cbn [fst snd].
        rewrite list_lookup_insert_eq by (by eapply lookup_lt_Some).
        split; [done|].
        destruct (rates0 !! k) as [r|] eqn:Er.
        -- rewrite list_lookup_insert_eq by (by eapply lookup_lt_Some).
           cbn [fmap option_fmap option_map]. by rewrite ?Ecr.
        -- by apply list_lookup_insert_None.
      * cbn [fst snd fmap option_fmap option_map]. by rewrite Hsk, Hrk.
    + assert ((if decide (i < S k)%nat
               then (fun ss => (cell_rates t ss).1) <$> sums0 !! i
               else sums0 !! i) = sums !! i
              /\ (if decide (i < S k)%nat
                  then match sums0 !! i with
                       | Some ss =>
                           (fun _ => (cell_rates t ss).2) <$> rates0 !! i
                       | None => rates0 !! i
                       end
                  else rates0 !! i) = rates !! i) as [-> ->].
      { rewrite Hsi, Hri.
        destruct (decide (i < k)%nat), (decide (i < S k)%nat);
          try done; lia. }
      destruct (sums !! k) as [ss|]; [|done].
      destruct (cell_rates t ss) as [ss' fr]. cbn [fst snd].
      by rewrite !list_lookup_insert_ne.
Qed.

Lemma calculate_firing_rates_length c :
  length (spike_sums (calculate_firing_rates cfg c)) = length (spike_sums c).
Proof.
  destruct (calculate_firing_rates_fields cfg c) as [-> _].
  pose (P := fun (k : nat)
                 (p : list cell_spike_sums * list cell_firing_rates) =>
               length p.1 = length (spike_sums c)).
  apply (for_loop_ind P NUM_CELL_TYPES); unfold P; [done|].
  intros k [sums rates] _ IH. cbn [fst snd] in *.
  destruct (sums !! k) as [ss|]; [|done].
  destruct (cell_rates _ ss) as [ss' fr]. cbn [fst snd].
  by rewrite length_insert.
Qed.

Lemma calculate_firing_rates_eta c :
  calculate_firing_rates cfg c
  = set_firing_rates (firing_rates (calculate_firing_rates cfg c))
      (set_spike_sums (spike_sums (calculate_firing_rates cfg c)) c).
Proof.
  unfold calculate_firing_rates.
  by destruct (for_loop _ _ _) as [sums rates].
Qed.

Lemma calculate_firing_rates_sized c :
  Forall2 cell_sized (population_sizes cfg) (spike_sums c) ->
  Forall2 cell_sized (population_sizes cfg)
    (spike_sums (calculate_firing_rates cfg c)).
Proof.
  intros Hs. apply Forall2_same_length_lookup in Hs as [Hlen Hs].
  apply Forall2_same_length_lookup.
  assert (length (population_sizes cfg) = NUM_CELL_TYPES) as Hp by done.
  split; [by rewrite calculate_firing_rates_length|].
  intros i size ss' Hsize E.
  destruct (calculate_firing_rates_all_lookup c i) as [Hl _].
  rewrite Hl in E. apply lookup_lt_Some in Hsize as Hi.
  rewrite decide_True in E by (by rewrite <- Hp).
  destruct (spike_sums c !! i) as [ss|] eqn:Ess; [|done].
  injection E as <-. destruct (Hs i size ss Hsize Ess) as (Hn & Hc & Hnc).
  unfold cell_sized, cell_rates. simpl.
  by rewrite !sort_counters_length.
Qed.

Lemma tracked_sized n c :
  tracked cfg n c -> Forall2 cell_sized (population_sizes cfg) (spike_sums c).
Proof.
  intros Ht.
  induction Ht as [c|n tts c c' Ht IH Hu Hf|n c Ht IH|n c c' Ht IH He].
  - apply initialize_spike_sums_sized.
  - by eapply update_spike_sums_sized.
  - rewrite reset_spike_sums_sized by done. apply initialize_spike_sums_sized.
  - by rewrite He.
Qed.

(** X13.  At the end of a trial the tallies are back to what
    [initialize_spike_sums] made them: after any sequence of updates and
    resets, [reset_spike_sums], alone or after [calculate_firing_rates]
    as in [runTrials], leaves every sum at zero and every counter array
    zeroed over its whole length. *)
Theorem reset_restores_the_initial_sums (n : nat) (c : Control) :
  tracked cfg n c ->
  spike_sums (reset_spike_sums c) = spike_sums (initialize_spike_sums cfg c)
  /\ spike_sums (reset_spike_sums (calculate_firing_rates cfg c))
     = spike_sums (initialize_spike_sums cfg c).
Proof.
  intros Ht. pose proof (tracked_sized n c Ht) as Hs.
  split; [by apply reset_spike_sums_sized|].
  rewrite (reset_spike_sums_sized (calculate_firing_rates cfg c)); [done|].
  by apply calculate_firing_rates_sized.
Qed.

(** X14.  No counter outruns the updates: after any sequence of updates
    (on 0/1 flags) and resets, with fewer than 2^32 updates since the
    sums were last zeroed, every per-cell counter of every cell type is
    between 0 and the number of those updates, and each of the two sums
    between 0 and that number times the number of cells; so neither a
    32-bit counter nor a 64-bit sum has wrapped. *)
Theorem spike_counters_bounded_by_updates (n : nat) (c : Control) :
  population_sizes_fit cfg ->
  tracked cfg n c ->
  Z.of_nat n < uint32_modulus ->
  forall (t : cell_type), exists ss,
    spike_sums c !! cell_index t = Some ss
    /\ counters_within n (cs_spike_counter ss)
    /\ counters_within n (non_cs_spike_counter ss)
    /\ 0 <= cs_spike_sum ss <= Z.of_nat (num_cells ss) * Z.of_nat n
    /\ 0 <= non_cs_spike_sum ss <= Z.of_nat (num_cells ss) * Z.of_nat n
    /\ Z.of_nat (num_cells ss) * Z.of_nat n < spike_sum_modulus.
Proof.
  intros Hfit Ht Hn t.
  destruct (tracked_cells cfg n c Hfit Ht) as [Hlen Hall].
  pose proof (cell_index_lt t) as Hlt.
  destruct (lookup_lt_is_Some_2 (spike_sums c) (cell_index t)) as [ss Hss];
    [lia|].
  exists ss. split; [done|].
  destruct (proj1 (Forall_lookup _ _) Hall _ _ Hss) as (Hc & Hnc & Hcells & Hw).
  destruct (Hw Hn) as (Hwc & Hwn & Hcs & Hncs).
  pose proof (Zsum_within n _ Hwc) as Hb1.
  pose proof (Zsum_within n _ Hwn) as Hb2.
  rewrite Hc in Hb1. rewrite Hnc in Hb2.
  rewrite Hcs, Hncs. split_and!; try done; try lia.
  unfold spike_sum_modulus, uint32_modulus in *. nia.
Qed.

(** X15.  [calculate_firing_rates] can be repeated: a second call on
    its own result changes nothing, the arrays being sorted already and
    the rates recomputed from the same numbers; and a call keeps the
    number of cells and the two sums of every cell type and permutes its
    counters, so that sums that were those of the counters still are. *)
Theorem calculate_firing_rates_repeatable (c : Control) :
  let c' := calculate_firing_rates cfg c in
  calculate_firing_rates cfg c' = c'
  /\ forall (t : cell_type) ss,
       spike_sums c !! cell_index t = Some ss ->
       exists ss',
         spike_sums c' !! cell_index t = Some ss'
         /\ num_cells ss' = num_cells ss
         /\ cs_spike_counter ss' ≡ₚ cs_spike_counter ss
         /\ non_cs_spike_counter ss' ≡ₚ non_cs_spike_counter ss
         /\ cs_spike_sum ss' = cs_spike_sum ss
         /\ non_cs_spike_sum ss' = non_cs_spike_sum ss
         /\ (sums_conserved ss -> sums_conserved ss').
Proof.
  intros c'. split.
  - pose proof (calculate_firing_rates_eta c) as He. fold c' in He.
    rewrite (calculate_firing_rates_eta c').
    assert (spike_sums (calculate_firing_rates cfg c') = spike_sums c'
            /\ firing_rates (calculate_firing_rates cfg c') = firing_rates c')
      as [-> ->].
    { split; apply list_eq; intros i.
      - destruct (calculate_firing_rates_all_lookup c' i) as [-> _].
        destruct (decide (i < NUM_CELL_TYPES)%nat) as [Hi|Hi]; [|done].
        unfold c'.
        destruct (calculate_firing_rates_all_lookup c i) as [-> _].
        rewrite decide_True by done.
        destruct (spike_sums c !! i) as [ss|]; [|done].
        cbn [fmap option_fmap option_map]. by rewrite cell_rates_idemp.
      - destruct (calculate_firing_rates_all_lookup c' i) as [_ ->].
        destruct (decide (i < NUM_CELL_TYPES)%nat) as [Hi|Hi]; [|done].
        unfold c'.
        destruct (calculate_firing_rates_all_lookup c i) as [-> ->].
        rewrite decide_True by done.
        destruct (spike_sums c !! i) as [ss|]; [|done].
        cbn [fmap option_fmap option_map]. rewrite cell_rates_idemp.
        rewrite decide_True by done.
        by destruct (firing_rates c !! i). }
    etransitivity; [|symmetry; exact He].
    generalize (firing_rates c') (spike_sums c'). intros r s.
    rewrite He. by destruct c.
  - intros t ss Hss.
    destruct (calculate_firing_rates_all_lookup c (cell_index t)) as [Hl _].
    rewrite decide_True, Hss in Hl by apply cell_index_lt. simpl in Hl.
    eexists. split; [exact Hl|].
    apply (cell_rates_conserved (inject_Z (csStart cfg - 1) / 1000)%Q ss).
Qed.

End Statistics_more.

(** ** The Golgi report *)

Section GolgiReport_facts.
Context `{Floats}.
Variable cfg : config.



End GolgiReport_facts.

(** ** The trial loop, further *)

Section Trials_more.
Context `{C : Components} `{R : RandGen} `{SG : Stimulus} `{FE : FrontEnd}.
Context `{SIO : !SetupIO}.
Variable cfg : config.

(** Without the graphical front end a timestep records no spike, and
    outside the terminal mode it leaves the run flags and the world of
    the front ends alone. *)
Lemma timestep_batch MFGO GOGR GRGO tts s s' :
  timestep cfg MFGO GOGR GRGO None tts s = Some s' ->
  same_statistics (run_control s) (run_control s')
  /\ (sim_vis_mode (run_control s) <> TUI ->
        flags_of (run_control s') = flags_of (run_control s)
        /\ run_world s' = run_world s).
Proof.
  unfold timestep. intros Ht.
  destruct (simCore (run_control s)) as [core|]; [|done].
  destruct (mfFreq (run_control s)) as [freq|] eqn:Efreq; [|done].
  destruct (mfs (run_control s)) as [cells|]; [|done].
  simpl in Ht.
  match type of Ht with
  | context [let '(_, _) := ?e in _] => destruct e as [ap cells1]
  end.
  destruct (calcTrueMFs (getMFBG freq) cells1) as [isTrueMF cells2].
  simpl in Ht.
  destruct (sim_vis_mode (run_control s)) eqn:Evis.
  - injection Ht as <-. simpl. split; [done|]. intros _. by destruct s.
  - match type of Ht with
    | context [let '(_, _) := ?e in _] => destruct e as [w flags]
    end.
    injection Ht as <-. simpl. split; [by destruct flags|]. done.
  - injection Ht as <-. simpl. split; [done|]. intros _. by destruct s.
Qed.

Lemma run_timesteps_batch MFGO GOGR GRGO k : forall tts s s',
  run_timesteps cfg MFGO GOGR GRGO None k tts s = Some s' ->
  same_statistics (run_control s) (run_control s')
  /\ (sim_vis_mode (run_control s) <> TUI ->
        flags_of (run_control s') = flags_of (run_control s)
        /\ run_world s' = run_world s).
Proof.
  induction k as [|k IH]; intros tts s s' Hr.
  - injection Hr as <-. by split.
  - simpl in Hr.
    destruct (timestep cfg MFGO GOGR GRGO None tts s) as [s1|] eqn:E; [|done].
    simpl in Hr.
    pose proof (timestep_spec cfg _ _ _ _ _ _ _ E) as (_ & _ & Hvis & _).
    apply timestep_batch in E as [(H1 & H2 & H3 & H4) Hf].
    apply IH in Hr as [(H1' & H2' & H3' & H4') Hf'].
    split; [unfold same_statistics; split_and!; congruence|].
    intros Hm. destruct (Hf Hm) as [<- <-]. apply Hf'. by rewrite Hvis.
Qed.

Lemma run_trial_batch fuel MFGO GOGR GRGO s s' :
  outcome_state (run_trial cfg fuel MFGO GOGR GRGO None s) = Some s' ->
  same_statistics (run_control s) (run_control s')
  /\ (sim_vis_mode (run_control s) <> TUI ->
        flags_of (run_control s') = flags_of (run_control s)
        /\ run_world s' = run_world s).
Proof.
  unfold run_trial.
  destruct (if homeoTuningTrials cfg <=? trial (run_control s) then _ else _)
    as [s0|] eqn:E0; [|done].
  simpl. intros [= <-]. simpl.
  destruct (homeoTuningTrials cfg <=? trial (run_control s)).
  - by apply run_timesteps_batch in E0.
  - injection E0 as <-. by split.
Qed.

Lemma same_statistics_trans (c1 c2 c3 : Control) :
  same_statistics c1 c2 -> same_statistics c2 c3 -> same_statistics c1 c3.
Proof.
  unfold same_statistics. intros (? & ? & ? & ?) (? & ? & ? & ?).
  split_and!; congruence.
Qed.

Lemma while_trials_batch_frame fuel total MFGO GOGR GRGO n : forall s s',
  outcome_state (while_trials cfg n fuel total MFGO GOGR GRGO None s)
  = Some s' ->
  same_statistics (run_control s) (run_control s').
Proof.
  induction n as [|n IH]; intros s s'; simpl;
    destruct ((trial (run_control s) <? total) && in_run (run_control s));
    try (intros [= <-]; by split_and!).
  destruct (run_trial cfg fuel MFGO GOGR GRGO None s) as [s1|s1|s1|] eqn:E;
    try done.
  - intros Hw. apply IH in Hw.
    destruct (run_trial_batch fuel MFGO GOGR GRGO s s1) as [Hs _];
      [by rewrite E|].
    by eapply same_statistics_trans.
  - intros [= <-].
    by destruct (run_trial_batch fuel MFGO GOGR GRGO s s1) as [Hs _];
      [by rewrite E|].
  - intros [= <-].
    by destruct (run_trial_batch fuel MFGO GOGR GRGO s s1) as [Hs _];
      [by rewrite E|].
Qed.

(** X17.  Without the graphical front end [runTrials] records nothing:
    whatever the mode and however the run ends, the spike vectors, the
    spike sums and the firing rates of the controller are those it had
    before the run ([update_spike_sums], [calculate_firing_rates] and
    [reset_spike_sums] are called only under [gui != NULL]). *)
Theorem batch_run_records_no_spikes
    (fuel : nat) (simNum : Z) (GOGR GRGO MFGO : float)
    (c : Control) (w : World) (s' : run_state) :
  outcome_state (runTrials cfg fuel simNum GOGR GRGO MFGO None c w) = Some s' ->
  same_statistics c (run_control s').
Proof.
  unfold runTrials.
  match goal with
  | |- context [while_trials cfg ?n fuel ?t ?a ?b ?d None ?s] =>
      pose proof (while_trials_batch_frame fuel t a b d n s) as Hw;
      destruct (while_trials cfg n fuel t a b d None s) as [s1|s1|s1|]
  end; simpl; try done.
  - intros [= <-]. simpl.
    destruct (Hw s1 eq_refl) as (H1 & H2 & H3 & H4). simpl in *.
    by split_and!.
  - intros [= <-]. by apply Hw.
  - intros [= <-]. by apply Hw.
Qed.



Lemma timestep_sized MFGO GOGR GRGO g tts s s' :
  Forall2 cell_sized (population_sizes cfg) (spike_sums (run_control s)) ->
  timestep cfg MFGO GOGR GRGO g tts s = Some s' ->
  Forall2 cell_sized (population_sizes cfg) (spike_sums (run_control s')).
Proof.
  unfold timestep. intros Hs Ht.
  destruct (simCore (run_control s)) as [core|]; [|done].
  destruct (mfFreq (run_control s)) as [freq|] eqn:Efreq; [|done].
  destruct (mfs (run_control s)) as [cells|]; [|done].
  simpl in Ht.
  match type of Ht with
  | context [let '(_, _) := ?e in _] => destruct e as [ap cells1]
  end.
  destruct (calcTrueMFs (getMFBG freq) cells1) as [isTrueMF cells2].
  match type of Ht with
  | (?m ≫= _) = _ => destruct m as [c1|] eqn:Ec1; [|done]
  end.
  simpl in Ht.
  assert (Forall2 cell_sized (population_sizes cfg) (spike_sums c1)) as Hs1.
  { destruct g.
    - eapply (update_spike_sums_sized cfg); [|exact Ec1]. exact Hs.
    - by injection Ec1 as <-. }
  match type of Ht with
  | context [let '(_, _) := ?e in _] => destruct e as [w flags]
  end.
  injection Ht as <-. simpl. by destruct flags.
Qed.

Lemma run_timesteps_sized MFGO GOGR GRGO g k : forall tts s s',
  Forall2 cell_sized (population_sizes cfg) (spike_sums (run_control s)) ->
  run_timesteps cfg MFGO GOGR GRGO g k tts s = Some s' ->
  Forall2 cell_sized (population_sizes cfg) (spike_sums (run_control s')).
Proof.
  induction k as [|k IH]; intros tts s s' Hs Hr.
  - by injection Hr as <-.
  - simpl in Hr.
    destruct (timestep cfg MFGO GOGR GRGO g tts s) as [s1|] eqn:E; [|done].
    simpl in Hr. eapply IH; [|exact Hr]. by eapply timestep_sized.
Qed.

(** A pass of the trial loop under the graphical front end that ends
    leaves the sums reset. *)
Lemma run_trial_gui_resets fuel MFGO GOGR GRGO gh s s' :
  Forall2 cell_sized (population_sizes cfg) (spike_sums (run_control s)) ->
  run_trial cfg fuel MFGO GOGR GRGO (Some gh) s = Finished s' ->
  spike_sums (run_control s')
  = spike_sums (initialize_spike_sums cfg (run_control s)).
Proof.
  unfold run_trial. intros Hs.
  destruct (if homeoTuningTrials cfg <=? trial (run_control s) then _ else _)
    as [s0|] eqn:E0; [|done].
  assert (Forall2 cell_sized (population_sizes cfg)
            (spike_sums (run_control s0))) as Hs0.
  { destruct (homeoTuningTrials cfg <=? trial (run_control s)).
    - by eapply run_timesteps_sized.
    - by injection E0 as <-. }
  apply calculate_firing_rates_sized in Hs0.
  destruct (if sim_is_paused (calculate_firing_rates cfg (run_control s0))
            then _ else _) as [[w f] resumed].
  destruct resumed; [|done]. intros [= <-]. simpl.
  destruct f as [f1 f2].
  transitivity
    (spike_sums (reset_spike_sums
                   (calculate_firing_rates cfg (run_control s0)))); [done|].
  by rewrite (reset_spike_sums_sized cfg _ Hs0).
Qed.

Lemma while_trials_gui_resets fuel total MFGO GOGR GRGO gh n : forall s s',
  Forall2 cell_sized (population_sizes cfg) (spike_sums (run_control s)) ->
  while_trials cfg n fuel total MFGO GOGR GRGO (Some gh) s = Finished s' ->
  spike_sums (run_control s') = spike_sums (run_control s)
  \/ spike_sums (run_control s')
     = spike_sums (initialize_spike_sums cfg (run_control s)).
Proof.
  induction n as [|n IH]; intros s s' Hs; simpl;
    destruct ((trial (run_control s) <? total) && in_run (run_control s));
    try done; try (intros [= <-]; by left).
  destruct (run_trial cfg fuel MFGO GOGR GRGO (Some gh) s) as [s1|s1|s1|] eqn:E;
    try done.
  pose proof (run_trial_gui_resets _ _ _ _ _ _ _ Hs E) as H1.
  intros Hw. apply IH in Hw as [Hw|Hw].
  - right. by rewrite Hw, H1.
  - right. by rewrite Hw.
  - rewrite H1. apply initialize_spike_sums_sized.
Qed.

Lemma while_trials_gui_first fuel total MFGO GOGR GRGO gh n s s' :
  Forall2 cell_sized (population_sizes cfg) (spike_sums (run_control s)) ->
  trial (run_control s) < total -> in_run (run_control s) = true ->
  while_trials cfg n fuel total MFGO GOGR GRGO (Some gh) s = Finished s' ->
  spike_sums (run_control s')
  = spike_sums (initialize_spike_sums cfg (run_control s)).
Proof.
  intros Hs Ht Hr. destruct n as [|n]; simpl;
    rewrite Hr, (proj2 (Z.ltb_lt _ _) Ht); simpl; [done|].
  destruct (run_trial cfg fuel MFGO GOGR GRGO (Some gh) s) as [s1|s1|s1|] eqn:E;
    try done.
  pose proof (run_trial_gui_resets _ _ _ _ _ _ _ Hs E) as H1.
  intros Hw. apply while_trials_gui_resets in Hw as [Hw|Hw].
  - by rewrite Hw, H1.
  - by rewrite Hw.
  - rewrite H1. apply initialize_spike_sums_sized.
Qed.

(** X19.  Under the graphical front end the spike sums never carry
    over: a run of at least one trial that ends leaves them as
    [initialize_spike_sums] makes them, every sum at zero and every
    counter zeroed, whatever was recorded during the trials; provided the
    sums had their sizes when the run began. *)
Theorem gui_run_ends_with_the_sums_reset
    (fuel : nat) (simNum : Z) (GOGR GRGO MFGO : float) (gh : gui)
    (c : Control) (w : World) (s' : run_state) :
  Forall2 cell_sized (population_sizes cfg) (spike_sums c) ->
  0 < homeoTuningTrials cfg + granuleActDetectTrials cfg
      + numTrainingTrials cfg ->
  runTrials cfg fuel simNum GOGR GRGO MFGO (Some gh) c w = Finished s' ->
  spike_sums (run_control s') = spike_sums (initialize_spike_sums cfg c).
Proof.
  intros Hs Htotal. unfold runTrials.
  match goal with
  | |- context [while_trials cfg ?k fuel ?t ?a ?b ?d (Some gh) ?s] =>
      pose proof (while_trials_gui_first fuel t a b d gh k s) as Hw;
      destruct (while_trials cfg k fuel t a b d (Some gh) s) as [s1|s1|s1|]
  end; try done.
  intros [= <-]. simpl. by rewrite (Hw s1).
Qed.

End Trials_more.

(** ** Experiments *)

Section Experiment_facts.
Context `{C : Components} `{R : RandGen} `{SG : Stimulus} `{FE : FrontEnd}.
Context `{SIO : !SetupIO}.
Variable cfg : config.
Variable float_0_0 : float.
Variables mfgoW gogrW grgoW : float.











End Experiment_facts.

(** ** Further examples *)

Section Further_examples.
Existing Instance raw_components.
Existing Instance lcg_rand.
Existing Instance rational_floats.
Existing Instance still_kernel.
Existing Instance steady_stimulus.
Existing Instance scripted_front_end.
Existing Instance raw_setup.

(** A state of one zone read from four bytes, written and read again. *)
Lemma restored_state_round_trip_witness :
  CBMState_file 1 raw_plasticity
    (open_stream
       (writeState (MkCBMState (C:=raw_components) 1 x01 x02 [x03] [x04]) []
        ++ [x2a]))
  = Ok (MkCBMState (C:=raw_components) 1 x01 x02 [x03] [x04],
        open_stream [x2a]).
Proof.
  apply (restored_state_round_trip raw_plasticity raw_round_trip 1
           (Fstream [x01; x02; x03; x04] false) (Fstream [] false)).
  reflexivity.
Defined.

(** A generated state of three zones, read back with a zone count of
    two. *)
Lemma restore_with_fewer_zones_witness :
  let s := CBMState_new 7 3 in
  CBMState_file 2 raw_plasticity (open_stream (writeState s [] ++ [x2a]))
  = Ok (MkCBMState 2 (innetConState s) (innetActState s)
          (take 2 (mzoneConStates s)) (take 2 (mzoneActStates s)),
        open_stream
          (zone_bytes (drop 2 (mzoneConStates s)) (drop 2 (mzoneActStates s))
           ++ [x2a])).
Proof.
  apply (restore_with_fewer_zones raw_plasticity raw_round_trip
           (CBMState_new 7 3) 2 [x2a]).
  - split; reflexivity.
  - simpl. lia.
Defined.


(** The path [data/run.1/expt.tar.bin]. *)
Lemma getFileBasename_strips_directory_and_extension_witness :
  getFileBasename (String.list_ascii_of_string "data/run.1/expt.tar.bin")
  = Some (String.list_ascii_of_string "expt.tar").
Proof.
  apply (getFileBasename_strips_directory_and_extension
           (String.list_ascii_of_string "data/run.1")
           (String.list_ascii_of_string "expt.tar")
           (String.list_ascii_of_string "bin") "/"%char).
  - apply (bool_decide_unpack _); vm_compute; exact I.
  - apply (bool_decide_unpack _); vm_compute; exact I.
  - apply (bool_decide_unpack _); vm_compute; exact I.
  - apply (bool_decide_unpack _); vm_compute; exact I.
Defined.

(** Three indices out of five, with the generator of the examples. *)
Lemma gen_gr_sample_gives_distinct_indices_witness :
  Sampling.gen_gr_sample 20 [9; 9; 9; 9] 3 5 = Sampling.Sampled [0; 1; 4; 9]
  /\ NoDup (take (Z.to_nat 3) [0; 1; 4; 9])
  /\ Forall (fun x => 0 <= x < 5) (take (Z.to_nat 3) [0; 1; 4; 9])
  /\ drop (Z.to_nat 3) [0; 1; 4; 9] = drop (Z.to_nat 3) [9; 9; 9; 9].
Proof.
  split; [reflexivity|].
  apply (gen_gr_sample_gives_distinct_indices 20 [9; 9; 9; 9] [0; 1; 4; 9] 3 5).
  reflexivity.
Defined.

Lemma gen_gr_sample_returns_on_distinct_draws_witness :
  exists g, Sampling.gen_gr_sample 20 [9; 9; 9; 9] 3 5 = Sampling.Sampled g.
Proof.
  apply (gen_gr_sample_returns_on_distinct_draws 20 [9; 9; 9; 9] [0; 1; 4] 3 5).
  - apply (bool_decide_unpack _); vm_compute; exact I.
  - simpl. lia.
  - apply (bool_decide_unpack _); vm_compute; exact I.
  - apply (bool_decide_unpack _); vm_compute; exact I.
  - simpl. lia.
Defined.

(** Three indices out of two. *)
Lemma gen_gr_sample_never_returns_for_few_cells_witness :
  (forall g, Sampling.gen_gr_sample 10 [9; 9; 9] 3 2 <> Sampling.Sampled g)
  /\ Sampling.gen_gr_sample 10 [9; 9; 9] 3 2 = Sampling.StillSampling.
Proof.
  destruct (gen_gr_sample_never_returns_for_few_cells 10 [9; 9; 9] 3 2)
    as [Hnever Hstill]; [lia|lia|].
  split; [exact Hnever|]. apply Hstill.
  - apply (bool_decide_unpack _); vm_compute; exact I.
  - simpl. lia.
Defined.

Lemma reset_restores_the_initial_sums_witness :
  spike_sums (reset_spike_sums after_cs_update)
  = spike_sums (initialize_spike_sums small_config after_cs_update)
  /\ spike_sums
       (reset_spike_sums (calculate_firing_rates small_config after_cs_update))
     = spike_sums (initialize_spike_sums small_config after_cs_update).
Proof.
  exact (reset_restores_the_initial_sums small_config 1 after_cs_update
           after_cs_update_tracked).
Defined.

Lemma spike_counters_bounded_by_updates_witness :
  exists ss,
    spike_sums after_cs_update !! cell_index GO = Some ss
    /\ counters_within 1 (cs_spike_counter ss)
    /\ counters_within 1 (non_cs_spike_counter ss)
    /\ 0 <= cs_spike_sum ss <= Z.of_nat (num_cells ss) * Z.of_nat 1
    /\ 0 <= non_cs_spike_sum ss <= Z.of_nat (num_cells ss) * Z.of_nat 1
    /\ Z.of_nat (num_cells ss) * Z.of_nat 1 < spike_sum_modulus.
Proof.
  apply (spike_counters_bounded_by_updates small_config 1 after_cs_update
           small_config_sizes_fit after_cs_update_tracked).
  unfold uint32_modulus. simpl. lia.
Defined.


Lemma batch_run_records_no_spikes_witness :
  exists s',
    runTrials small_config 0 0 0%Q 0%Q 0%Q None ready_control [] = Finished s'
    /\ same_statistics ready_control (run_control s').
Proof.
  eexists. split; [vm_compute; reflexivity|].
  apply (batch_run_records_no_spikes (FE:=scripted_front_end)
           small_config 0 0 0%Q 0%Q 0%Q ready_control []).
  vm_compute. reflexivity.
Defined.


Lemma gui_run_ends_with_the_sums_reset_witness :
  exists s',
    runTrials small_config 5 0 0%Q 0%Q 0%Q (Some ()) ready_control []
    = Finished s'
    /\ spike_sums (run_control s')
       = spike_sums (initialize_spike_sums small_config ready_control).
Proof.
  eexists. split; [vm_compute; reflexivity|].
  apply (gui_run_ends_with_the_sums_reset (FE:=scripted_front_end)
           small_config 5 0 0%Q 0%Q 0%Q () ready_control []).
  - apply initialize_spike_sums_sized.
  - simpl. lia.
  - vm_compute. reflexivity.
Defined.



End Further_examples.
